(** * celeste_times: save-file statistics and their comparison

    A shallow embedding of [main.py]: the clock formatting ([parse_time],
    [find_diff]), the extraction of per-chapter statistics from a parsed
    save document ([parse_areas]) and the row data handed to the report
    template ([generate_results]).

    Python integers are unbounded, so they are [Z]. Strings are [string].
    An [xml.etree] element is a tag, an attribute dictionary and a list of
    children. Exceptions are the left side of a [result]. *)

From stdpp Require Import base numbers list option strings gmap pretty.
From Stdlib Require Import ZArith Lia Ascii.

Local Open Scope Z_scope.

(** ** Exceptions *)

Inductive PyError : Type :=
| IndexError
| KeyError
| ValueError.

Inductive result (A : Type) : Type :=
| Ok (a : A)
| Raise (e : PyError).
Arguments Ok {A} a.
Arguments Raise {A} e.

Global Instance result_ret : MRet result := λ A a, Ok a.
Global Instance result_bind : MBind result := λ A B f m,
  match m with
  | Ok a => f a
  | Raise e => Raise e
  end.

(** [for x in xs: st = body st x], where the body may raise. *)
Fixpoint for_each {S A : Type} (body : S → A → result S) (st : S)
    (xs : list A) : result S :=
  match xs with
  | [] => Ok st
  | x :: xs' => st' ← body st x; for_each body st' xs'
  end.

(** ** Python builtins used by the program *)

(** [divmod a b]: floor division and the matching remainder; [Z.div] and
    [Z.modulo] round the same way. *)
Definition divmod (a b : Z) : Z * Z := (a `div` b, a `mod` b).

(** [f"{n}"] for an integer. *)
Definition fmt_d (n : Z) : string := pretty n.

Fixpoint zeros (k : nat) : string :=
  match k with
  | O => EmptyString
  | S k' => "0" +:+ zeros k'
  end.

(** [f"{n:0{w}d}"]: the sign first, then zeros up to the width [w], then
    the digits. *)
Definition fmt_0d (w : nat) (n : Z) : string :=
  let sign := if n <? 0 then "-" else EmptyString in
  let digits := pretty (Z.abs n) in
  sign +:+ zeros (w - String.length sign - String.length digits) +:+ digits.

(** [sep.join(parts)] with the empty separator. *)
Definition join (parts : list string) : string :=
  foldr String.append EmptyString parts.

(** [s * b] for a string and a boolean: the string once or not at all. *)
Definition str_mul_bool (s : string) (b : bool) : string :=
  if b then s else EmptyString.

(** [xs[i]] on a list: a negative index counts from the end. *)
Definition py_index {A : Type} (xs : list A) (i : Z) : result A :=
  let n := Z.of_nat (length xs) in
  let j := if i <? 0 then i + n else i in
  if (j <? 0) || (n <=? j) then Raise IndexError
  else match xs !! Z.to_nat j with
       | Some x => Ok x
       | None => Raise IndexError
       end.

(** [xs.pop()]: removes and returns the last item. *)
Definition py_pop {A : Type} (xs : list A) : result (A * list A) :=
  match reverse xs with
  | [] => Raise IndexError
  | x :: front => Ok (x, reverse front)
  end.

(** ** Data model *)

Record AreaStats : Type := mkAreaStats {
  name : string;
  completed : bool;
  time_played : Z;
  deaths : Z;
}.

Record SaveFile : Type := mkSaveFile {
  id_ : Z;
  game_completed : bool;
  total_time : Z;
  total_deaths : Z;
  areas : list AreaStats;
}.

(** An [xml.etree.ElementTree.Element]. *)
#[warnings="-register-all"] Inductive Element : Type :=
| Elem (tag : string) (attrib : gmap string string) (children : list Element).

Definition tag (e : Element) : string := let 'Elem t _ _ := e in t.
Definition attrib (e : Element) : gmap string string := let 'Elem _ a _ := e in a.
Definition children (e : Element) : list Element := let 'Elem _ _ c := e in c.

(** ** TimeCodec *)

Definition parse_time (time_ : Z) : string :=
  let ms := time_ `div` 10000 in
  let '(hours, remainder) := divmod ms 3600000 in
  let '(mins, remainder) := divmod remainder 60000 in
  let '(secs, ms) := divmod remainder 1000 in
  let time_components := [] in
  let time_components :=
    if 0 <? hours then
      (time_components ++ [fmt_d hours +:+ ":"]) ++ [fmt_0d 2 mins +:+ ":"]
    else if 0 <? mins then
      time_components ++ [fmt_d mins +:+ ":"]
    else time_components in
  let time_components :=
    time_components ++
      [if (0 <? hours) || (0 <? mins) then fmt_0d 2 secs +:+ "."
       else fmt_d secs +:+ "."] in
  let time_components := time_components ++ [fmt_0d 3 ms] in
  join time_components.

Definition find_diff (time_a time_b : Z) : string :=
  let a_is_faster := time_a <? time_b in
  let diff := Z.max time_a time_b - Z.min time_a time_b in
  str_mul_bool "-" a_is_faster +:+ parse_time diff.

(** ** SaveParser *)

(** [d[k]] on a dictionary. *)
Definition dict_get (d : gmap string string) (k : string) : result string :=
  match d !! k with
  | Some v => Ok v
  | None => Raise KeyError
  end.

(** The list literal of [parse_areas], before [reversed]: 33 slots, [None]
    for the slots that are not scored. *)
Definition chapter_catalog : list (option string) :=
  [Some "Prologue"; None; None;
   Some "1a"; Some "1b"; Some "1c";
   Some "2a"; Some "2b"; Some "2c";
   Some "3a"; Some "3b"; Some "3c";
   Some "4a"; Some "4b"; Some "4c";
   Some "5a"; Some "5b"; Some "5c";
   Some "6a"; Some "6b"; Some "6c";
   Some "7a"; Some "7b"; Some "7c";
   None; None; None;
   Some "8a"; Some "8b"; Some "8c";
   Some "Farewell"; None; None].

(** The local variables of [parse_areas] that its loops update. *)
Module Loc.
Record t : Type := mk {
  area_names : list (option string);
  total_deaths : Z;
  total_time : Z;
  areas : list AreaStats;
  game_completed : bool;
}.
End Loc.

Section SaveParser.

(** [int(s)] on a string: [None] stands for [ValueError]. Which strings
    the builtin accepts is left open. *)
Variable int : string → option Z.

Definition py_int (s : string) : result Z :=
  match int s with
  | Some n => Ok n
  | None => Raise ValueError
  end.

(** The body of [for area_stats in area[0]]. *)
Definition stats_body (st : Loc.t) (area_stats : Element) : result Loc.t :=
  '(area_name, area_names) ← py_pop (Loc.area_names st);
  match area_name with
  | None =>
      Ok (Loc.mk area_names (Loc.total_deaths st) (Loc.total_time st)
            (Loc.areas st) (Loc.game_completed st))
  | Some area_name =>
      c ← dict_get (attrib area_stats) "Completed";
      let completed := String.eqb c "true" in
      tp ← dict_get (attrib area_stats) "TimePlayed";
      time_played ← py_int tp;
      d ← dict_get (attrib area_stats) "Deaths";
      deaths ← py_int d;
      let game_completed :=
        if completed then
          if String.eqb area_name "Farewell" then true
          else Loc.game_completed st
        else Loc.game_completed st in
      Ok (Loc.mk area_names
            (Loc.total_deaths st + deaths)
            (Loc.total_time st + time_played)
            (Loc.areas st ++ [mkAreaStats area_name completed time_played deaths])
            game_completed)
  end.

(** The body of [for area in child]. *)
Definition area_body (st : Loc.t) (area : Element) : result Loc.t :=
  mode ← py_index (children area) 0;
  for_each stats_body st (children mode).

(** [for child in root], left by [break] after the first "Areas" child. *)
Fixpoint root_loop (st : Loc.t) (cs : list Element) : result Loc.t :=
  match cs with
  | [] => Ok st
  | child :: rest =>
      if String.eqb (tag child) "Areas"
      then for_each area_body st (children child)
      else root_loop st rest
  end.

(** A loaded save is the root element of its document. *)
Definition parse_areas (all_saves : list Element) (save_id : Z)
    : result SaveFile :=
  let area_names := reverse chapter_catalog in
  let st := Loc.mk area_names 0 0 [] false in
  root ← py_index all_saves save_id;
  st ← root_loop st (children root);
  Ok (mkSaveFile save_id (Loc.game_completed st) (Loc.total_time st)
        (Loc.total_deaths st) (Loc.areas st)).

End SaveParser.

(** ** ComparisonBuilder *)

(** A value of a row: the template receives strings and integers. *)
Inductive Cell : Type :=
| CStr (s : string)
| CInt (n : Z).

Record Row : Type := mkRow {
  chapter : string;
  result_a : Cell;
  result_b : Cell;
  diff : Cell;
  a_is_better : bool;
  b_is_better : bool;
}.

(** The dictionary handed to the template. *)
Record Data : Type := mkData {
  title : string;
  heading : string;
  time_rows : list Row;
  death_rows : list Row;
  save_id_a : Z;
  save_id_b : Z;
}.

(** Truth value of [None] or a string. *)
Definition truthy (x : option string) : bool :=
  match x with
  | None => false
  | Some s => negb (String.eqb s EmptyString)
  end.

(** [x or y] where [x] is [None] or a string. *)
Definition py_or (x : option string) (y : Cell) : Cell :=
  match x with
  | Some s => if truthy x then CStr s else y
  | None => y
  end.

(** The body of [for area_a, area_b in zip(...)]. *)
Definition rows_body (st : list Row * list Row) (p : AreaStats * AreaStats)
    : list Row * list Row :=
  let '(time_rows, death_rows) := st in
  let '(area_a, area_b) := p in
  if negb (completed area_a && completed area_b) then (time_rows, death_rows)
  else
    let time_rows := time_rows ++ [
      mkRow (name area_a)
        (CStr (parse_time (time_played area_a)))
        (CStr (parse_time (time_played area_b)))
        (CStr (find_diff (time_played area_a) (time_played area_b)))
        (time_played area_a <? time_played area_b)
        (time_played area_a >? time_played area_b)] in
    let death_rows := death_rows ++ [
      mkRow (name area_a)
        (CInt (deaths area_a))
        (CInt (deaths area_b))
        (CInt (deaths area_a - deaths area_b))
        (deaths area_a <? deaths area_b)
        (deaths area_a >? deaths area_b)] in
    (time_rows, death_rows).

(** [generate_results] up to the data given to the template. *)
Definition generate_results (save_a save_b : SaveFile) : Data :=
  let '(time_rows, death_rows) :=
    foldl rows_body ([], []) (zip (areas save_a) (areas save_b)) in
  let result_a := if game_completed save_a then None else Some "-" in
  let result_b := if game_completed save_b then None else Some "-" in
  let diff :=
    if game_completed save_a && game_completed save_b then None
    else Some "-" in
  let time_rows := time_rows ++ [
    mkRow "TOTAL TIME"
      (py_or result_a (CStr (parse_time (total_time save_a))))
      (py_or result_b (CStr (parse_time (total_time save_b))))
      (py_or diff (CStr (find_diff (total_time save_a) (total_time save_b))))
      (if truthy diff then false else total_time save_a <? total_time save_b)
      (if truthy diff then false else total_time save_a >? total_time save_b)] in
  let death_rows := death_rows ++ [
    mkRow "TOTAL DEATHS"
      (py_or result_a (CInt (total_deaths save_a)))
      (py_or result_b (CInt (total_deaths save_b)))
      (py_or diff (CInt (total_deaths save_a - total_deaths save_b)))
      (if truthy diff then false else total_deaths save_a <? total_deaths save_b)
      (if truthy diff then false else total_deaths save_a >? total_deaths save_b)] in
  mkData "Celeste Savefile Comparison"
    ("Comparing Celeste all chapters runs, " +:+ fmt_d (id_ save_a)
       +:+ " vs. " +:+ fmt_d (id_ save_b))
    time_rows death_rows (id_ save_a) (id_ save_b).

(** ** Specification-side definitions

    What the specification says in its own words, to be compared with the
    definitions above. *)

(** One decimal digit as a character. *)
Definition digit_char (d : Z) : ascii :=
  ascii_of_nat (48 + Z.to_nat d).

(** Exactly two characters: tens and units. *)
Definition two_digits (n : Z) : string :=
  String (digit_char (n `div` 10)) (String (digit_char (n `mod` 10)) EmptyString).

(** Exactly three characters: hundreds, tens and units. *)
Definition three_digits (n : Z) : string :=
  String (digit_char (n `div` 100)) (two_digits (n `mod` 100)).

(** The clock string of a number of milliseconds: "H:MM:SS.mmm",
    "M:SS.mmm" or "S.mmm". *)
Definition clock (total_ms : Z) : string :=
  let h := total_ms `div` 3600000 in
  let m := (total_ms `div` 60000) `mod` 60 in
  let s := (total_ms `div` 1000) `mod` 60 in
  let ms := total_ms `mod` 1000 in
  if 0 <? h then
    pretty h +:+ ":" +:+ two_digits m +:+ ":" +:+ two_digits s
      +:+ "." +:+ three_digits ms
  else if 0 <? m then
    pretty m +:+ ":" +:+ two_digits s +:+ "." +:+ three_digits ms
  else
    pretty s +:+ "." +:+ three_digits ms.

Definition format_time (raw : Z) : string := clock (raw `div` 10000).

Definition starts_with_minus (s : string) : bool :=
  match s with
  | String c _ => Ascii.eqb c "-"
  | EmptyString => false
  end.

(** The stats entries that [parse_areas] visits, in document order: the
    children of the first child of every entry of the first "Areas"
    container. *)
Definition areas_container (root : Element) : option Element :=
  List.find (λ child, String.eqb (tag child) "Areas") (children root).

Definition first_mode_stats (area : Element) : list Element :=
  match children area with
  | mode :: _ => children mode
  | [] => []
  end.

Definition scored_entries (root : Element) : list Element :=
  match areas_container root with
  | Some container => children container ≫= first_mode_stats
  | None => []
  end.

(** The stats entries that meet a real chapter, each with its chapter,
    when entry [i] is given slot [i] of [slots]. *)
Definition real_pairs (slots : list (option string)) (entries : list Element)
    : list (string * Element) :=
  omap (λ p, (λ nm : string, (nm, p.2)) <$> p.1) (zip slots entries).

Section Reference.

Variable int : string → option Z.

(** The [AreaStats] read from one stats entry for the chapter [nm]. *)
Definition stat_of (nm : string) (e : Element) : option AreaStats :=
  c ← attrib e !! "Completed";
  tp ← attrib e !! "TimePlayed" ≫= int;
  d ← attrib e !! "Deaths" ≫= int;
  Some (mkAreaStats nm (String.eqb c "true") tp d).

(** [parse_areas] rewritten as the specification proposes: the catalog
    is read forward through an index that counts the stats entries
    processed so far. *)
Definition stats_body_indexed (st : nat * Loc.t) (area_stats : Element)
    : result (nat * Loc.t) :=
  let '(i, st) := st in
  area_name ← py_index chapter_catalog (Z.of_nat i);
  match area_name with
  | None => Ok (S i, st)
  | Some area_name =>
      c ← dict_get (attrib area_stats) "Completed";
      let completed := String.eqb c "true" in
      tp ← dict_get (attrib area_stats) "TimePlayed";
      time_played ← py_int int tp;
      d ← dict_get (attrib area_stats) "Deaths";
      deaths ← py_int int d;
      Ok (S i,
          Loc.mk (Loc.area_names st)
            (Loc.total_deaths st + deaths)
            (Loc.total_time st + time_played)
            (Loc.areas st ++ [mkAreaStats area_name completed time_played deaths])
            (Loc.game_completed st
             || (completed && String.eqb area_name "Farewell")))
  end.

Definition area_body_indexed (st : nat * Loc.t) (area : Element)
    : result (nat * Loc.t) :=
  mode ← py_index (children area) 0;
  for_each stats_body_indexed st (children mode).

Fixpoint root_loop_indexed (st : nat * Loc.t) (cs : list Element)
    : result (nat * Loc.t) :=
  match cs with
  | [] => Ok st
  | child :: rest =>
      if String.eqb (tag child) "Areas"
      then for_each area_body_indexed st (children child)
      else root_loop_indexed st rest
  end.

Definition parse_areas_indexed (all_saves : list Element) (save_id : Z)
    : result SaveFile :=
  root ← py_index all_saves save_id;
  '(_, st) ← root_loop_indexed (O, Loc.mk [] 0 0 [] false) (children root);
  Ok (mkSaveFile save_id (Loc.game_completed st) (Loc.total_time st)
        (Loc.total_deaths st) (Loc.areas st)).

End Reference.

(** Both areas of a pair completed. *)
Definition both_completed (p : AreaStats * AreaStats) : bool :=
  completed p.1 && completed p.2.

Definition chapter_time_row (p : AreaStats * AreaStats) : Row :=
  mkRow (name p.1)
    (CStr (parse_time (time_played p.1)))
    (CStr (parse_time (time_played p.2)))
    (CStr (find_diff (time_played p.1) (time_played p.2)))
    (time_played p.1 <? time_played p.2)
    (time_played p.2 <? time_played p.1).

Definition chapter_death_row (p : AreaStats * AreaStats) : Row :=
  mkRow (name p.1)
    (CInt (deaths p.1)) (CInt (deaths p.2))
    (CInt (deaths p.1 - deaths p.2))
    (deaths p.1 <? deaths p.2)
    (deaths p.2 <? deaths p.1).

(** The totals rows as the specification words them. *)
Definition total_cell (done_ : bool) (v : Cell) : Cell :=
  if done_ then v else CStr "-".

Definition total_time_row (a b : SaveFile) : Row :=
  let both := game_completed a && game_completed b in
  mkRow "TOTAL TIME"
    (total_cell (game_completed a) (CStr (parse_time (total_time a))))
    (total_cell (game_completed b) (CStr (parse_time (total_time b))))
    (total_cell both (CStr (find_diff (total_time a) (total_time b))))
    (both && (total_time a <? total_time b))
    (both && (total_time b <? total_time a)).

Definition total_deaths_row (a b : SaveFile) : Row :=
  let both := game_completed a && game_completed b in
  mkRow "TOTAL DEATHS"
    (total_cell (game_completed a) (CInt (total_deaths a)))
    (total_cell (game_completed b) (CInt (total_deaths b)))
    (total_cell both (CInt (total_deaths a - total_deaths b)))
    (both && (total_deaths a <? total_deaths b))
    (both && (total_deaths b <? total_deaths a)).

(** Two results agree up to a relation on their values. *)
Definition result_rel {A B : Type} (R : A → B → Prop)
    (r1 : result A) (r2 : result B) : Prop :=
  match r1, r2 with
  | Ok a, Ok b => R a b
  | Raise e1, Raise e2 => e1 = e2
  | _, _ => False
  end.

(** The popped list and the forward index describe the same position in
    the catalog, and the other locals are equal. *)
Definition cursor_agrees (st : Loc.t) (ist : nat * Loc.t) : Prop :=
  Loc.area_names st = reverse (drop ist.1 chapter_catalog)
  ∧ Loc.total_deaths st = Loc.total_deaths ist.2
  ∧ Loc.total_time st = Loc.total_time ist.2
  ∧ Loc.areas st = Loc.areas ist.2
  ∧ Loc.game_completed st = Loc.game_completed ist.2.

(** Two area entries with the same first child, whatever follows it. *)
Definition same_first_mode (a b : Element) : Prop :=
  children a !! 0%nat = children b !! 0%nat.

(** Two documents that differ at most in the later children of the area
    entries of their "Areas" containers. *)
Definition same_scored_part (r1 r2 : Element) : Prop :=
  Forall2 (λ c d, tag c = tag d
                  ∧ (tag c = "Areas" →
                     Forall2 same_first_mode (children c) (children d)))
    (children r1) (children r2).

(** A result of [parse_areas] with its [id_] replaced. *)
Definition with_id (i : Z) (r : result SaveFile) : result SaveFile :=
  match r with
  | Ok sf => Ok (mkSaveFile i (game_completed sf) (total_time sf)
                   (total_deaths sf) (areas sf))
  | Raise e => Raise e
  end.

(** A completed area of the final chapter. *)
Definition farewell_done (a : AreaStats) : bool :=
  completed a && String.eqb (name a) "Farewell".

(** Sum of a Python integer field over a list. *)
Definition sum_of {A : Type} (f : A → Z) (xs : list A) : Z :=
  foldr (λ x acc, f x + acc) 0 xs.

(** ** Example data *)

(** A decimal reading for [int]: an optional sign and ASCII digits. The
    builtin accepts more (blanks around, underscores between digits); no
    example below needs it. *)
Definition digit_value (c : ascii) : option Z :=
  let n := Z.of_nat (nat_of_ascii c) in
  if (48 <=? n) && (n <=? 57) then Some (n - 48) else None.

Fixpoint digits_value (acc : Z) (s : string) : option Z :=
  match s with
  | EmptyString => Some acc
  | String c s' => d ← digit_value c; digits_value (10 * acc + d) s'
  end.

Definition unsigned_literal (s : string) : option Z :=
  match s with
  | EmptyString => None
  | _ => digits_value 0 s
  end.

Definition int_literal (s : string) : option Z :=
  match s with
  | String c s' =>
      if Ascii.eqb c "-" then Z.opp <$> unsigned_literal s'
      else if Ascii.eqb c "+" then unsigned_literal s'
      else unsigned_literal s
  | EmptyString => None
  end.

Definition stats_entry (c tp d : string) : Element :=
  Elem "AreaModeStats"
    (<["Completed" := c]> (<["TimePlayed" := tp]> (<["Deaths" := d]> ∅))) [].

Definition mode_entry (stats : list Element) : Element :=
  Elem "Modes" ∅ stats.

Definition area_entry (modes : list Element) : Element :=
  Elem "AreaStats" ∅ modes.

Definition save_doc (areas : list Element) : Element :=
  Elem "SaveData" ∅ [Elem "Name" ∅ []; Elem "Areas" ∅ areas; Elem "Time" ∅ []].

(** One area whose first mode has a single completed entry. *)
Definition doc_one : Element :=
  save_doc [area_entry [mode_entry [stats_entry "true" "100" "2"]]].

(** Two areas; the second one also has a second mode. *)
Definition doc_two : Element :=
  save_doc
    [area_entry [mode_entry [stats_entry "true" "100" "2"]];
     area_entry [mode_entry [stats_entry "true" "999" "9"];
                 mode_entry [stats_entry "true" "5" "5"]]].

(** Four areas; the first one has a second mode. Were that mode scored,
    its entry would take slot 1 and move every later entry one slot on. *)
Definition doc_modes : Element :=
  save_doc
    [area_entry [mode_entry [stats_entry "true" "100" "2"];
                 mode_entry [stats_entry "true" "5" "5"]];
     area_entry [mode_entry [stats_entry "true" "999" "9"]];
     area_entry [mode_entry [stats_entry "true" "30" "3"]];
     area_entry [mode_entry [stats_entry "true" "40" "4"]]].

Definition doc_modes_pruned : Element :=
  save_doc
    [area_entry [mode_entry [stats_entry "true" "100" "2"]];
     area_entry [mode_entry [stats_entry "true" "999" "9"]];
     area_entry [mode_entry [stats_entry "true" "30" "3"]];
     area_entry [mode_entry [stats_entry "true" "40" "4"]]].

Definition prologue_and_1a : SaveFile :=
  mkSaveFile 0 false 140 6
    [mkAreaStats "Prologue" true 100 2; mkAreaStats "1a" true 40 4].

(** 31 areas of one completed entry each: the last one is "Farewell". *)
Definition doc_full : Element :=
  save_doc (replicate 31 (area_entry [mode_entry [stats_entry "true" "10" "1"]])).

Definition prologue_only : SaveFile :=
  mkSaveFile 0 false 100 2 [mkAreaStats "Prologue" true 100 2].

(** Two saves of three chapters, all completed. *)
Definition save_three_a : SaveFile :=
  mkSaveFile 0 false 600 6
    [mkAreaStats "Prologue" true 100 1; mkAreaStats "1a" true 200 2;
     mkAreaStats "1b" true 300 3].

Definition save_three_b : SaveFile :=
  mkSaveFile 1 false 450 9
    [mkAreaStats "Prologue" true 150 4; mkAreaStats "1a" true 200 0;
     mkAreaStats "1b" true 100 5].

(** No "Areas" container at all. *)
Definition doc_fresh : Element :=
  Elem "SaveData" ∅ [Elem "Name" ∅ []].

(** ** The remaining functions of [main.py]

    [load_all_saves] and [ask_to_compare], which feed [parse_areas]. The
    saves directory is a dictionary from file names to file contents,
    [ET.parse] is a function from contents to documents that may fail, and
    [input] is the line it returns. Characters are code points below 256. *)

(** The result of [load_all_saves]: the documents, or the [ParseError] of
    [ET.parse]. *)
Inductive LoadResult (A : Type) : Type :=
| Loaded (a : A)
| ParseError.
Arguments Loaded {A} a.
Arguments ParseError {A}.

(** [range(n)]: empty when [n] is not positive. *)
Definition py_range (n : Z) : list Z := seqZ 0 n.

(** [f"{i}.celeste"]. *)
Definition save_name (i : Z) : string := fmt_d i +:+ ".celeste".

Section Loader.

(** [ET.parse] on the content of a file: [None] stands for [ParseError]. *)
Variable et_parse : string → option Element.

(** The loop of [load_all_saves] over the remaining indices; a missing
    file leaves it by [break]. *)
Fixpoint load_loop (dir : gmap string string) (indices : list Z)
    (total_count : Z) (all_saves : list Element)
    : LoadResult (Z * list Element) :=
  match indices with
  | [] => Loaded (total_count, all_saves)
  | i :: rest =>
      match dir !! save_name i with
      | None => Loaded (total_count, all_saves)
      | Some content =>
          match et_parse content with
          | None => ParseError
          | Some doc => load_loop dir rest (total_count + 1) (all_saves ++ [doc])
          end
      end
  end.

Definition load_all_saves (dir : gmap string string) (max_saves : Z)
    : LoadResult (list Element) :=
  match load_loop dir (py_range max_saves) 0 [] with
  | Loaded (total_count, all_saves) => Loaded all_saves
  | ParseError => ParseError
  end.

End Loader.

(** [c.isspace()] for a code point below 256. *)
Definition isspace (c : ascii) : bool :=
  let n := nat_of_ascii c in
  ((9 <=? n)%nat && (n <=? 13)%nat) || ((28 <=? n)%nat && (n <=? 32)%nat)
  || (n =? 133)%nat || (n =? 160)%nat.

(** [s.split()]: the maximal runs of characters that are not blank, found
    by one scan; [split_token] is the scan inside a run whose characters
    read so far are [cur]. *)
Fixpoint py_split (s : string) : list string :=
  match s with
  | EmptyString => []
  | String c s' =>
      if isspace c then py_split s'
      else split_token (String c EmptyString) s'
  end
with split_token (cur : string) (s : string) : list string :=
  match s with
  | EmptyString => [cur]
  | String c s' =>
      if isspace c then cur :: py_split s'
      else split_token (cur +:+ String c EmptyString) s'
  end.

Section AskToCompare.

Variable int : string → option Z.

(** [ask_to_compare] on the line that [input] returns. Unpacking anything
    but two items raises [ValueError], as [int] does. *)
Definition ask_to_compare (line : string) : result (Z * Z) :=
  match py_split line with
  | [save_a; save_b] =>
      a ← py_int int save_a;
      b ← py_int int save_b;
      Ok (a, b)
  | _ => Raise ValueError
  end.

End AskToCompare.

(** ** Further specification-side definitions *)

Fixpoint string_forall (P : ascii → bool) (s : string) : bool :=
  match s with
  | EmptyString => true
  | String c s' => P c && string_forall P s'
  end.

(** A string of blanks, and a token: not empty, no blank in it. *)
Definition blank (s : string) : bool := string_forall isspace s.

Definition token (s : string) : bool :=
  negb (String.eqb s EmptyString) && string_forall (λ c, negb (isspace c)) s.

(** Tokens laid out on a line: each token with the blanks that follow
    it. Between two tokens there is at least one blank. *)
Fixpoint spaced (items : list (string * string)) : string :=
  match items with
  | [] => EmptyString
  | (t, w) :: rest => t +:+ w +:+ spaced rest
  end.

Fixpoint well_spaced (items : list (string * string)) : Prop :=
  match items with
  | [] => True
  | (t, w) :: rest =>
      token t = true ∧ blank w = true
      ∧ (w = EmptyString → rest = []) ∧ well_spaced rest
  end.

(** File [i] of the directory is there and is well-formed. *)
Definition file_parses (et_parse : string → option Element)
    (dir : gmap string string) (i : Z) (doc : Element) : Prop :=
  ∃ content, dir !! save_name i = Some content ∧ et_parse content = Some doc.

(** Reading a clock string back into milliseconds: the fields are summed
    up in base 60 at each colon and in thousandths at the point. *)
Definition read_step (st : Z * Z) (c : ascii) : Z * Z :=
  if Ascii.eqb c ":" then ((st.1 + st.2) * 60, 0)
  else if Ascii.eqb c "." then ((st.1 + st.2) * 1000, 0)
  else (st.1, 10 * st.2 + (Z.of_nat (nat_of_ascii c) - 48)).

Fixpoint read_fold (st : Z * Z) (s : string) : Z * Z :=
  match s with
  | EmptyString => st
  | String c s' => read_fold (read_step st c) s'
  end.

Definition read_clock (s : string) : Z :=
  let st := read_fold (0, 0) s in st.1 + st.2.

(** The 26 chapters of the catalog, in order. *)
Definition chapter_names : list string := omap id chapter_catalog.

(** Every area entry of the first "Areas" container has a child. *)
Definition areas_have_modes (root : Element) : Prop :=
  match areas_container root with
  | Some container => Forall (λ area, children area ≠ []) (children container)
  | None => True
  end.

(** A save with its areas replaced. *)
Definition with_areas (sf : SaveFile) (l : list AreaStats) : SaveFile :=
  mkSaveFile (id_ sf) (game_completed sf) (total_time sf) (total_deaths sf) l.

(** The two values and the two flags of a row, as they are and with the
    sides exchanged. *)
Definition row_sides (r : Row) : Cell * Cell * bool * bool :=
  (result_a r, result_b r, a_is_better r, b_is_better r).

Definition row_sides_swapped (r : Row) : Cell * Cell * bool * bool :=
  (result_b r, result_a r, b_is_better r, a_is_better r).

(** The displayed difference and the flags of a row say the same. *)
Definition time_row_coherent (r : Row) : Prop :=
  ∃ d, diff r = CStr d ∧ starts_with_minus d = a_is_better r.

Definition death_row_coherent (r : Row) : Prop :=
  ∃ n, diff r = CInt n ∧ (n <? 0) = a_is_better r ∧ (0 <? n) = b_is_better r.

(** ** Further example data *)

(** A stand-in for [ET.parse] on two known contents. *)
Definition toy_parse (content : string) : option Element :=
  if String.eqb content "one" then Some doc_one
  else if String.eqb content "two" then Some doc_two
  else None.

(** Files 0 and 1, no file 2, and a malformed file 3. *)
Definition toy_dir : gmap string string :=
  <["0.celeste" := "one"]> (<["1.celeste" := "two"]>
    (<["3.celeste" := "broken"]> ∅)).

(** The same files 0 and 1, and a well-formed file 3 and a file 4. *)
Definition toy_dir_more : gmap string string :=
  <["0.celeste" := "one"]> (<["1.celeste" := "two"]>
    (<["3.celeste" := "one"]> (<["4.celeste" := "two"]> ∅))).

(** The "Areas" container of [doc_one] under another root, followed by a
    second "Areas" child. *)
Definition doc_one_more : Element :=
  Elem "Other" (<["version" := "2"]> ∅)
    [Elem "Areas" ∅ [area_entry [mode_entry [stats_entry "true" "100" "2"]]];
     Elem "Areas" ∅ [area_entry [mode_entry [stats_entry "true" "7" "7"]]]].

(** 34 readable stats entries. *)
Definition doc_overfull : Element :=
  save_doc (replicate 34 (area_entry [mode_entry [stats_entry "true" "10" "1"]])).

(** Two stats entries in one mode; in [doc_flat_bare] the second one, on
    a placeholder slot, has no attribute at all. *)
Definition doc_flat : Element :=
  save_doc [area_entry [mode_entry [stats_entry "true" "100" "2";
                                    stats_entry "true" "999" "9"]]].

Definition doc_flat_bare : Element :=
  save_doc [area_entry [mode_entry [stats_entry "true" "100" "2";
                                    Elem "AreaModeStats" ∅ []]]].

(** Two completed games over two chapters. *)
Definition save_done_a : SaveFile :=
  mkSaveFile 0 true 300 3
    [mkAreaStats "Prologue" true 100 1; mkAreaStats "1a" true 200 2].

Definition save_done_b : SaveFile :=
  mkSaveFile 1 true 350 2
    [mkAreaStats "Prologue" true 150 2; mkAreaStats "1a" true 200 0].

(** * Properties *)

(** ** TimeCodec *)

Lemma checked_below (P : Z → bool) (k : Z) :
  forallb P (seqZ 0 k) = true → ∀ n, 0 ≤ n < k → P n = true.
Proof.
  intros Hall n Hn. rewrite forallb_forall in Hall.
  apply Hall, list_elem_of_In, elem_of_seqZ. lia.
Qed.

Lemma fmt_0d_two_digits n : 0 ≤ n < 100 → fmt_0d 2 n = two_digits n.
Proof.
  intros Hn. apply String.eqb_eq.
  apply (checked_below (λ n, String.eqb (fmt_0d 2 n) (two_digits n)) 100);
    [vm_compute; reflexivity | exact Hn].
Qed.

Lemma fmt_0d_three_digits n : 0 ≤ n < 1000 → fmt_0d 3 n = three_digits n.
Proof.
  intros Hn. apply String.eqb_eq.
  apply (checked_below (λ n, String.eqb (fmt_0d 3 n) (three_digits n)) 1000);
    [vm_compute; reflexivity | exact Hn].
Qed.

Lemma append_cons (c : ascii) (s t : string) :
  String c s +:+ t = String c (s +:+ t).
Proof. reflexivity. Qed.

Lemma append_empty_l (s : string) : EmptyString +:+ s = s.
Proof. reflexivity. Qed.

Lemma append_assoc (s1 s2 s3 : string) :
  (s1 +:+ s2) +:+ s3 = s1 +:+ (s2 +:+ s3).
Proof.
  induction s1 as [|c s1 IH]; [reflexivity |].
  rewrite !append_cons. f_equal. exact IH.
Qed.

Lemma append_empty_r (s : string) : s +:+ EmptyString = s.
Proof.
  induction s as [|c s IH]; [reflexivity |].
  rewrite append_cons. f_equal. exact IH.
Qed.

Lemma clock_fields (ms : Z) :
  (ms `mod` 3600000) `div` 60000 = (ms `div` 60000) `mod` 60
  ∧ ((ms `mod` 3600000) `mod` 60000) `div` 1000 = (ms `div` 1000) `mod` 60
  ∧ ((ms `mod` 3600000) `mod` 60000) `mod` 1000 = ms `mod` 1000.
Proof. repeat split; Z.to_euclidean_division_equations; lia. Qed.

Lemma parse_time_clock raw : parse_time raw = format_time raw.
Proof.
  unfold parse_time, format_time, clock, divmod, fmt_d, join.
  set (ms := raw `div` 10000).
  destruct (clock_fields ms) as (Hm & Hs & Hms).
  rewrite Hm, Hs, Hms.
  assert (0 ≤ (ms `div` 60000) `mod` 60 < 100)
    by (pose proof (Z.mod_pos_bound (ms `div` 60000) 60); lia).
  assert (0 ≤ (ms `div` 1000) `mod` 60 < 100)
    by (pose proof (Z.mod_pos_bound (ms `div` 1000) 60); lia).
  assert (0 ≤ ms `mod` 1000 < 1000) by (apply Z.mod_pos_bound; lia).
  rewrite fmt_0d_three_digits by assumption.
  destruct (0 <? ms `div` 3600000) eqn:Hh; simpl.
  - rewrite !fmt_0d_two_digits by assumption.
    simpl. rewrite !append_assoc, !append_empty_r. reflexivity.
  - destruct (0 <? (ms `div` 60000) `mod` 60) eqn:Hmin; simpl.
    + rewrite fmt_0d_two_digits by assumption.
      simpl. rewrite !append_assoc, !append_empty_r. reflexivity.
    + simpl. rewrite !append_assoc, !append_empty_r. reflexivity.
Qed.

Lemma pretty_N_go_nonempty (x : N) (s : string) :
  s ≠ EmptyString → pretty_N_go x s ≠ EmptyString.
Proof.
  revert s. induction (N.lt_wf_0 x) as [x _ IH]; intros s Hs.
  destruct (decide (x = 0)%N) as [->|Hx]; [by rewrite pretty_N_go_0 |].
  rewrite pretty_N_go_step by lia.
  apply IH; [apply N.div_lt; lia | discriminate].
Qed.

Lemma pretty_nonneg_head (n : Z) (rest : string) :
  0 ≤ n → starts_with_minus (pretty n +:+ rest) = false.
Proof.
  intros Hn. destruct n as [|p|p]; [reflexivity | | lia].
  change (pretty (Z.pos p)) with (pretty (N.pos p)).
  unfold pretty, pretty_N. rewrite decide_False by discriminate.
  destruct (pretty_N_go (N.pos p) EmptyString) as [|c t] eqn:Hgo.
  - exfalso. rewrite pretty_N_go_step in Hgo by lia.
    by apply pretty_N_go_nonempty in Hgo.
  - rewrite append_cons. simpl. apply Ascii.eqb_neq. intros ->.
    by apply (pretty_N_go_ne_dash (N.pos p) EmptyString t).
Qed.

Lemma clock_head (total_ms : Z) :
  0 ≤ total_ms → starts_with_minus (clock total_ms) = false.
Proof.
  intros Hms. unfold clock.
  pose proof (Z.mod_pos_bound (total_ms `div` 60000) 60).
  pose proof (Z.mod_pos_bound (total_ms `div` 1000) 60).
  repeat case_match; apply pretty_nonneg_head; lia.
Qed.

Lemma parse_time_head (raw : Z) :
  0 ≤ raw → starts_with_minus (parse_time raw) = false.
Proof.
  intros Hraw. rewrite parse_time_clock. apply clock_head.
  apply Z.div_pos; lia.
Qed.

Lemma max_min_abs (a b : Z) : Z.max a b - Z.min a b = Z.abs (a - b).
Proof. lia. Qed.

(** C4. [parse_time] renders the milliseconds [raw // 10000] as the clock
    string of the specification: hours, minutes, seconds and milliseconds
    of that amount, as "H:MM:SS.mmm" when there are hours, "M:SS.mmm" when
    there are minutes but no hours, "S.mmm" otherwise, with the padded
    fields holding exactly two, respectively three, digits. It holds for
    every integer, so for every non-negative one; the three fixtures
    follow. *)
Theorem parse_time_renders_clock :
  (∀ raw : Z, parse_time raw = format_time raw)
  ∧ parse_time 0 = "0.000"
  ∧ parse_time (65 * 10000000) = "1:05.000"
  ∧ parse_time ((3600 + 2 * 60 + 3) * 10000000) = "1:02:03.000".
Proof.
  split; [exact parse_time_clock |].
  repeat split; vm_compute; reflexivity.
Qed.

(** C5. [find_diff] is the clock string of the absolute difference, with a
    minus sign before it exactly when [time_a < time_b]: the result starts
    with a minus sign if and only if [time_a < time_b], and the clock part
    is the same for both orders of the arguments. *)
Theorem find_diff_sign_and_magnitude (time_a time_b : Z) :
  find_diff time_a time_b
  = (if time_a <? time_b
     then "-" +:+ parse_time (Z.abs (time_a - time_b))
     else parse_time (Z.abs (time_a - time_b)))
  ∧ starts_with_minus (find_diff time_a time_b) = (time_a <? time_b)
  ∧ parse_time (Z.abs (time_a - time_b)) = parse_time (Z.abs (time_b - time_a)).
Proof.
  unfold find_diff. rewrite max_min_abs.
  split; [| split].
  - destruct (time_a <? time_b); reflexivity.
  - destruct (time_a <? time_b); simpl.
    + reflexivity.
    + rewrite append_empty_l. apply parse_time_head. lia.
  - f_equal. lia.
Qed.

(** ** ComparisonBuilder *)

Lemma rows_loop (ps : list (AreaStats * AreaStats)) (t d : list Row) :
  foldl rows_body (t, d) ps
  = (t ++ (chapter_time_row <$> List.filter both_completed ps),
     d ++ (chapter_death_row <$> List.filter both_completed ps)).
Proof.
  revert t d. induction ps as [|[a b] ps IH]; intros t d.
  - simpl. by rewrite !app_nil_r.
  - change (List.filter both_completed ((a, b) :: ps))
      with (if completed a && completed b
            then (a, b) :: List.filter both_completed ps
            else List.filter both_completed ps).
    change (foldl rows_body (t, d) ((a, b) :: ps))
      with (foldl rows_body (rows_body (t, d) (a, b)) ps).
    unfold rows_body at 2.
    destruct (completed a && completed b); simpl.
    + rewrite IH, <- !app_assoc, !Z.gtb_ltb. reflexivity.
    + apply IH.
Qed.

Lemma py_or_total_cell (done_ : bool) (v : Cell) :
  py_or (if done_ then None else Some "-") v = total_cell done_ v.
Proof. by destruct done_. Qed.

Lemma generate_results_rows (save_a save_b : SaveFile) :
  let pairs := List.filter both_completed (zip (areas save_a) (areas save_b)) in
  time_rows (generate_results save_a save_b)
  = (chapter_time_row <$> pairs) ++ [total_time_row save_a save_b]
  ∧ death_rows (generate_results save_a save_b)
    = (chapter_death_row <$> pairs) ++ [total_deaths_row save_a save_b].
Proof.
  unfold generate_results. rewrite rows_loop. simpl.
  unfold total_time_row, total_deaths_row.
  rewrite !py_or_total_cell, !Z.gtb_ltb.
  by destruct (game_completed save_a), (game_completed save_b).
Qed.

Lemma filter_all_completed (xs ys : list AreaStats) :
  Forall (λ x, completed x = true) xs →
  Forall (λ y, completed y = true) ys →
  List.filter both_completed (zip xs ys) = zip xs ys.
Proof.
  intros Hxs. revert ys.
  induction Hxs as [|x xs Hx _ IH]; intros ys Hys; [reflexivity |].
  destruct Hys as [|y ys Hy Hys]; [reflexivity |].
  simpl. unfold both_completed at 1. simpl. rewrite Hx, Hy. simpl.
  f_equal. by apply IH.
Qed.

(** C6. The two area lists are paired by position, and the rows before the
    totals row are exactly the rows of the pairs completed on both sides,
    in order and labelled with the chapter of side A, in [time_rows] and in
    [death_rows] alike; the function is total. Two saves of three chapters,
    all completed, give four rows in each sequence: the three chapters in
    their order, then the totals. *)
Theorem generate_results_chapter_rows (save_a save_b : SaveFile) :
  let pairs := List.filter both_completed (zip (areas save_a) (areas save_b)) in
  let data := generate_results save_a save_b in
  (∃ total_t total_d,
      time_rows data = (chapter_time_row <$> pairs) ++ [total_t]
      ∧ death_rows data = (chapter_death_row <$> pairs) ++ [total_d])
  ∧ (chapter <$> time_rows data) = ((λ p, name p.1) <$> pairs) ++ ["TOTAL TIME"]
  ∧ (chapter <$> death_rows data) = ((λ p, name p.1) <$> pairs) ++ ["TOTAL DEATHS"]
  ∧ (length (areas save_a) = 3%nat → length (areas save_b) = 3%nat →
     Forall (λ x, completed x = true) (areas save_a) →
     Forall (λ y, completed y = true) (areas save_b) →
     length (time_rows data) = 4%nat ∧ length (death_rows data) = 4%nat
     ∧ (chapter <$> time_rows data) = (name <$> areas save_a) ++ ["TOTAL TIME"]
     ∧ (chapter <$> death_rows data) = (name <$> areas save_a) ++ ["TOTAL DEATHS"]).
Proof.
  intros pairs data.
  destruct (generate_results_rows save_a save_b) as [Ht Hd].
  fold pairs data in Ht, Hd.
  assert (Hct : (chapter <$> time_rows data)
                = ((λ p, name p.1) <$> pairs) ++ ["TOTAL TIME"]).
  { rewrite Ht, fmap_app, <- list_fmap_compose. reflexivity. }
  assert (Hcd : (chapter <$> death_rows data)
                = ((λ p, name p.1) <$> pairs) ++ ["TOTAL DEATHS"]).
  { rewrite Hd, fmap_app, <- list_fmap_compose. reflexivity. }
  split; [eauto |]. split; [exact Hct |]. split; [exact Hcd |].
  intros Hla Hlb Hca Hcb.
  rewrite Hct, Hcd, Ht, Hd. subst pairs.
  rewrite filter_all_completed by assumption.
  destruct (areas save_a) as [|a1 [|a2 [|a3 [|]]]]; try discriminate.
  destruct (areas save_b) as [|b1 [|b2 [|b3 [|]]]]; try discriminate.
  repeat split.
Qed.

(** C7. Each sequence ends with one totals row, whatever the number of
    chapter rows before it. A side whose [game_completed] is false shows
    "-" in place of its total; unless both sides are completed the
    difference is "-" and both better-flags are false; when both are
    completed the totals are compared with strict inequalities. *)
Theorem generate_results_totals_row (save_a save_b : SaveFile) :
  let pairs := List.filter both_completed (zip (areas save_a) (areas save_b)) in
  let data := generate_results save_a save_b in
  last (time_rows data) = Some (total_time_row save_a save_b)
  ∧ last (death_rows data) = Some (total_deaths_row save_a save_b)
  ∧ length (time_rows data) = S (length pairs)
  ∧ length (death_rows data) = S (length pairs).
Proof.
  intros pairs data.
  destruct (generate_results_rows save_a save_b) as [Ht Hd].
  fold pairs data in Ht, Hd. rewrite Ht, Hd.
  rewrite !last_snoc, !length_app, !length_fmap. simpl.
  repeat split; lia.
Qed.

(** ** SaveParser *)

Lemma bind_Ok_inv {A B : Type} (m : result A) (f : A → result B) (b : B) :
  m ≫= f = Ok b → ∃ a, m = Ok a ∧ f a = Ok b.
Proof. destruct m as [a|e]; [eauto | discriminate]. Qed.

Lemma for_each_app {S A : Type} (body : S → A → result S) (st : S)
    (xs ys : list A) :
  for_each body st (xs ++ ys)
  = for_each body st xs ≫= λ st', for_each body st' ys.
Proof.
  revert st. induction xs as [|x xs IH]; intros st; [reflexivity |].
  simpl. destruct (body st x) as [st1|e]; [apply IH | reflexivity].
Qed.

Lemma py_pop_reverse_cons {A : Type} (x : A) (xs : list A) :
  py_pop (reverse (x :: xs)) = Ok (x, reverse xs).
Proof. unfold py_pop. by rewrite reverse_involutive. Qed.

Lemma py_index_first {A : Type} (xs : list A) (x : A) :
  py_index xs 0 = Ok x → ∃ rest, xs = x :: rest.
Proof.
  destruct xs as [|y rest]; [discriminate |].
  unfold py_index. simpl. intros [= ->]. eauto.
Qed.

Section SaveParserFacts.

Variable int : string → option Z.

Lemma stats_body_ok (st st' : Loc.t) (e : Element)
    (slot : option string) (names : list (option string)) :
  Loc.area_names st = reverse (slot :: names) →
  stats_body int st e = Ok st' →
  Loc.area_names st' = reverse names
  ∧ match slot with
    | None =>
        Loc.areas st' = Loc.areas st
        ∧ Loc.total_time st' = Loc.total_time st
        ∧ Loc.total_deaths st' = Loc.total_deaths st
        ∧ Loc.game_completed st' = Loc.game_completed st
    | Some nm =>
        ∃ a, stat_of int nm e = Some a
             ∧ Loc.areas st' = Loc.areas st ++ [a]
             ∧ Loc.total_time st' = Loc.total_time st + time_played a
             ∧ Loc.total_deaths st' = Loc.total_deaths st + deaths a
             ∧ Loc.game_completed st'
               = Loc.game_completed st || farewell_done a
    end.
Proof.
  intros Hnames. unfold stats_body.
  rewrite Hnames, py_pop_reverse_cons. simpl.
  destruct slot as [nm|]; [| intros [= <-]; done].
  unfold stat_of, dict_get, py_int.
  destruct (attrib e !! "Completed") as [c|]; [simpl | discriminate].
  destruct (attrib e !! "TimePlayed") as [tp|]; [simpl | discriminate].
  destruct (int tp) as [t|]; [simpl | discriminate].
  destruct (attrib e !! "Deaths") as [d|]; [simpl | discriminate].
  destruct (int d) as [n|]; [simpl | discriminate].
  intros [= <-]. simpl. split; [done |].
  eexists. split; [reflexivity |]. simpl. repeat split.
  unfold farewell_done. simpl.
  destruct (String.eqb c "true"), (String.eqb nm "Farewell"),
    (Loc.game_completed st); reflexivity.
Qed.

Lemma real_pairs_cons (slot : option string) (names : list (option string))
    (e : Element) (es : list Element) :
  real_pairs (slot :: names) (e :: es)
  = match slot with
    | Some nm => (nm, e) :: real_pairs names es
    | None => real_pairs names es
    end.
Proof. by destruct slot. Qed.

Lemma real_pairs_nil_r (names : list (option string)) :
  real_pairs names [] = [].
Proof. by destruct names. Qed.

(** The loop over stats entries, started with the names [names] still to
    be given out (first one next). *)
Lemma stats_loop_ok (es : list Element) :
  ∀ (names : list (option string)) (st st' : Loc.t),
    Loc.area_names st = reverse names →
    for_each (stats_body int) st es = Ok st' →
    (length es ≤ length names)%nat
    ∧ Loc.area_names st' = reverse (drop (length es) names)
    ∧ ∃ new,
        Forall2 (λ a p, stat_of int p.1 p.2 = Some a) new (real_pairs names es)
        ∧ Loc.areas st' = Loc.areas st ++ new
        ∧ Loc.total_time st' = Loc.total_time st + sum_of time_played new
        ∧ Loc.total_deaths st' = Loc.total_deaths st + sum_of deaths new
        ∧ Loc.game_completed st'
          = Loc.game_completed st || existsb farewell_done new.
Proof.
  induction es as [|e es IH]; intros names st st' Hnames Hrun.
  - simpl in Hrun. injection Hrun as <-. simpl.
    split; [lia |]. split; [by rewrite drop_0 |].
    exists []. rewrite app_nil_r, orb_false_r, real_pairs_nil_r. simpl.
    repeat split; [constructor | lia | lia].
  - simpl in Hrun. apply bind_Ok_inv in Hrun as (st1 & Hstep & Hrest).
    destruct names as [|slot names].
    { unfold stats_body in Hstep. rewrite Hnames in Hstep. discriminate. }
    destruct (stats_body_ok st st1 e slot names Hnames Hstep) as [Hn1 Hslot].
    destruct (IH names st1 st' Hn1 Hrest)
      as (Hlen & Hn' & new & Hnew & Ha & Ht & Hd & Hg).
    simpl. split; [lia |]. split; [exact Hn' |].
    rewrite real_pairs_cons.
    destruct slot as [nm|].
    + destruct Hslot as (a & Hstat & Ha1 & Ht1 & Hd1 & Hg1).
      exists (a :: new). simpl.
      rewrite Ha, Ha1, Ht, Ht1, Hd, Hd1, Hg, Hg1, <- app_assoc, orb_assoc.
      repeat split; [by constructor | lia | lia].
    + destruct Hslot as (Ha1 & Ht1 & Hd1 & Hg1).
      exists new. rewrite Ha, Ha1, Ht, Ht1, Hd, Hd1, Hg, Hg1. done.
Qed.

Lemma area_body_ok (st st' : Loc.t) (area : Element) :
  area_body int st area = Ok st' →
  for_each (stats_body int) st (first_mode_stats area) = Ok st'.
Proof.
  unfold area_body. intros Hrun.
  apply bind_Ok_inv in Hrun as (mode & Hmode & Hrun).
  apply py_index_first in Hmode as [rest Hmode].
  unfold first_mode_stats. by rewrite Hmode.
Qed.

Lemma areas_loop_ok (areas : list Element) :
  ∀ st st' : Loc.t,
    for_each (area_body int) st areas = Ok st' →
    for_each (stats_body int) st (areas ≫= first_mode_stats) = Ok st'.
Proof.
  induction areas as [|area areas IH]; intros st st' Hrun; [exact Hrun |].
  simpl in Hrun. apply bind_Ok_inv in Hrun as (st1 & Hstep & Hrest).
  change ((area :: areas) ≫= first_mode_stats)
    with (first_mode_stats area ++ (areas ≫= first_mode_stats)).
  rewrite for_each_app, (area_body_ok _ _ _ Hstep). simpl.
  by apply IH.
Qed.

Lemma root_loop_ok (cs : list Element) (tg : string)
    (at_ : gmap string string) (st st' : Loc.t) :
  root_loop int st cs = Ok st' →
  for_each (stats_body int) st (scored_entries (Elem tg at_ cs)) = Ok st'.
Proof.
  unfold scored_entries, areas_container. simpl.
  induction cs as [|child cs IH]; intros Hrun; [exact Hrun |].
  simpl in *. destruct (String.eqb (tag child) "Areas").
  - by apply areas_loop_ok.
  - by apply IH.
Qed.

Lemma parse_areas_inv (all_saves : list Element) (save_id : Z) (sf : SaveFile) :
  parse_areas int all_saves save_id = Ok sf →
  ∃ root st,
    py_index all_saves save_id = Ok root
    ∧ root_loop int (Loc.mk (reverse chapter_catalog) 0 0 [] false)
        (children root) = Ok st
    ∧ sf = mkSaveFile save_id (Loc.game_completed st) (Loc.total_time st)
             (Loc.total_deaths st) (Loc.areas st).
Proof.
  unfold parse_areas. intros Hrun.
  apply bind_Ok_inv in Hrun as (root & Hroot & Hrun).
  apply bind_Ok_inv in Hrun as (st & Hloop & Hrun).
  injection Hrun as <-. eauto.
Qed.

(** What a successful [parse_areas] returns, in terms of the stats
    entries it visited. *)
Lemma parse_areas_ok (all_saves : list Element) (save_id : Z)
    (root : Element) (sf : SaveFile) :
  py_index all_saves save_id = Ok root →
  parse_areas int all_saves save_id = Ok sf →
  let es := scored_entries root in
  (length es ≤ length chapter_catalog)%nat
  ∧ id_ sf = save_id
  ∧ Forall2 (λ a p, stat_of int p.1 p.2 = Some a) (areas sf)
      (real_pairs chapter_catalog es)
  ∧ total_time sf = sum_of time_played (areas sf)
  ∧ total_deaths sf = sum_of deaths (areas sf)
  ∧ game_completed sf = existsb farewell_done (areas sf)
  ∧ ∃ st, root_loop int (Loc.mk (reverse chapter_catalog) 0 0 [] false)
            (children root) = Ok st
          ∧ Loc.area_names st = reverse (drop (length es) chapter_catalog).
Proof.
  intros Hroot Hrun es.
  apply parse_areas_inv in Hrun as (root' & st & Hroot' & Hloop & ->).
  rewrite Hroot in Hroot'. injection Hroot' as <-.
  destruct root as [tg at_ cs]. simpl in Hloop.
  pose proof (root_loop_ok cs tg at_ _ _ Hloop) as Hflat.
  apply (stats_loop_ok _ chapter_catalog) in Hflat; [| reflexivity].
  destruct Hflat as (Hlen & Hnames & new & Hnew & Ha & Ht & Hd & Hg).
  simpl in Ha, Ht, Hd, Hg. subst es. simpl.
  rewrite Ha, Ht, Hd, Hg. eauto 10.
Qed.

Lemma real_pairs_lookup (slots : list (option string)) (es : list Element)
    (nm : string) (e : Element) :
  (nm, e) ∈ real_pairs slots es
  ↔ ∃ i : nat, slots !! i = Some (Some nm) ∧ es !! i = Some e.
Proof.
  unfold real_pairs. rewrite list_elem_of_omap. split.
  - intros ([slot e'] & Hin & Hsome).
    apply elem_of_lookup_zip_with in Hin as (i & y & z & [= -> ->] & Hy & Hz).
    simpl in Hsome. destruct y as [nm'|]; [| discriminate].
    injection Hsome as -> ->. eauto.
  - intros (i & Hslot & He). exists (Some nm, e). split; [| reflexivity].
    apply elem_of_lookup_zip_with. eauto 10.
Qed.

Lemma real_pairs_placeholders (slots : list (option string))
    (es : list Element) :
  Forall (λ slot, slot = None) (take (length es) slots) →
  real_pairs slots es = [].
Proof.
  revert slots. induction es as [|e es IH]; intros slots Hall.
  - apply real_pairs_nil_r.
  - destruct slots as [|slot slots]; [reflexivity |].
    simpl in Hall. apply Forall_cons in Hall as [-> Hall].
    rewrite real_pairs_cons. by apply IH.
Qed.

Lemma real_pairs_length (slots : list (option string)) (es : list Element) :
  length (real_pairs slots es)
  = length (List.filter (λ slot : option string, bool_decide (slot ≠ None))
              (take (length es) slots)).
Proof.
  revert slots. induction es as [|e es IH]; intros slots.
  - by rewrite real_pairs_nil_r.
  - destruct slots as [|slot slots]; [reflexivity |].
    rewrite real_pairs_cons. destruct slot as [nm|]; simpl; by rewrite IH.
Qed.

Lemma catalog_farewell (i : nat) :
  chapter_catalog !! i = Some (Some "Farewell") ↔ i = 30%nat.
Proof.
  split; [| intros ->; reflexivity].
  intros H. do 33 (destruct i as [|i]; [by (discriminate || reflexivity) |]).
  discriminate.
Qed.

Lemma stat_of_fields (nm : string) (e : Element) (a : AreaStats) :
  stat_of int nm e = Some a →
  name a = nm
  ∧ ∃ c, attrib e !! "Completed" = Some c ∧ completed a = String.eqb c "true".
Proof.
  unfold stat_of. intros H.
  destruct (attrib e !! "Completed") as [c|]; [simpl in H | discriminate].
  destruct (attrib e !! "TimePlayed" ≫= int) as [tp|]; [simpl in H | discriminate].
  destruct (attrib e !! "Deaths" ≫= int) as [d|]; [simpl in H | discriminate].
  injection H as <-. eauto.
Qed.

Lemma catalog_names (nm : string) (i : nat) :
  chapter_catalog !! i = Some (Some nm) → Some nm ∈ chapter_catalog.
Proof. intros H. apply list_elem_of_lookup. eauto. Qed.

(** C1, as the code has it. The stats entries are matched with the
    catalog read forward: entry [i] (from 0, in document order) is given
    catalog slot [i], so the first entry is "Prologue". The returned areas
    are, in order, the entries that meet a real chapter, each read from
    its own entry, and a document that parses has at most 33 entries. *)
Theorem parse_areas_pairs_forward (all_saves : list Element) (save_id : Z)
    (root : Element) (sf : SaveFile) :
  py_index all_saves save_id = Ok root →
  parse_areas int all_saves save_id = Ok sf →
  let es := scored_entries root in
  (length es ≤ 33)%nat
  ∧ Forall2 (λ a p, stat_of int p.1 p.2 = Some a) (areas sf)
      (real_pairs chapter_catalog es)
  ∧ ∀ (i : nat) (e : Element),
      es !! i = Some e →
      ∃ slot, chapter_catalog !! i = Some slot
              ∧ match slot with
                | Some nm => ∃ a, a ∈ areas sf ∧ stat_of int nm e = Some a
                | None => True
                end.
Proof.
  intros Hroot Hrun es.
  destruct (parse_areas_ok _ _ _ _ Hroot Hrun)
    as (Hlen & _ & Hareas & _).
  fold es in Hlen, Hareas.
  split; [exact Hlen |]. split; [exact Hareas |].
  intros i e He.
  destruct (chapter_catalog !! i) as [slot|] eqn:Hslot.
  - exists slot. split; [reflexivity |].
    destruct slot as [nm|]; [| exact I].
    assert (Hin : (nm, e) ∈ real_pairs chapter_catalog es)
      by (apply real_pairs_lookup; eauto).
    apply list_elem_of_lookup in Hin as [j Hj].
    destruct (Forall2_lookup_r _ _ _ _ _ Hareas Hj) as (a & Ha & Hstat).
    exists a. split; [by eapply list_elem_of_lookup_2 | exact Hstat].
  - apply lookup_ge_None in Hslot. apply lookup_lt_Some in He.
    lia.
Qed.

(** C8. [game_completed] is true exactly when the stats entry that is
    given the chapter "Farewell" (entry 30) exists and has [Completed]
    equal to "true"; equally, exactly when the returned areas hold a
    completed "Farewell". *)
Theorem game_completed_iff_farewell (all_saves : list Element) (save_id : Z)
    (root : Element) (sf : SaveFile) :
  py_index all_saves save_id = Ok root →
  parse_areas int all_saves save_id = Ok sf →
  (game_completed sf = true
   ↔ ∃ e, scored_entries root !! 30%nat = Some e
          ∧ attrib e !! "Completed" = Some "true")
  ∧ (game_completed sf = true
     ↔ ∃ a, a ∈ areas sf ∧ name a = "Farewell" ∧ completed a = true).
Proof.
  intros Hroot Hrun.
  destruct (parse_areas_ok _ _ _ _ Hroot Hrun)
    as (_ & _ & Hareas & _ & _ & Hg & _).
  assert (Hsecond : game_completed sf = true
     ↔ ∃ a, a ∈ areas sf ∧ name a = "Farewell" ∧ completed a = true).
  { rewrite Hg, existsb_exists. unfold farewell_done. split.
    - intros (a & Hin & Hdone). apply andb_prop in Hdone as [Hc Hn].
      apply String.eqb_eq in Hn. exists a.
      apply list_elem_of_In in Hin. done.
    - intros (a & Hin & Hn & Hc). exists a.
      apply list_elem_of_In in Hin. rewrite Hc, Hn. done. }
  split; [| exact Hsecond].
  rewrite Hsecond. split.
  - intros (a & Hin & Hn & Hc).
    apply list_elem_of_lookup in Hin as [j Hj].
    destruct (Forall2_lookup_l _ _ _ _ _ Hareas Hj) as ([nm e] & Hp & Hstat).
    simpl in Hstat.
    destruct (stat_of_fields _ _ _ Hstat) as (Hname & c & Hattr & Hcompl).
    rewrite Hn in Hname. subst nm.
    apply list_elem_of_lookup_2, real_pairs_lookup in Hp as (i & Hslot & He).
    apply catalog_farewell in Hslot as ->.
    exists e. split; [exact He |].
    rewrite Hc in Hcompl. symmetry in Hcompl.
    apply String.eqb_eq in Hcompl as ->. exact Hattr.
  - intros (e & He & Hattr).
    assert (Hin : ("Farewell", e) ∈ real_pairs chapter_catalog (scored_entries root)).
    { apply real_pairs_lookup. exists 30%nat. split; [reflexivity | exact He]. }
    apply list_elem_of_lookup in Hin as [j Hj].
    destruct (Forall2_lookup_r _ _ _ _ _ Hareas Hj) as (a & Ha & Hstat).
    simpl in Hstat.
    destruct (stat_of_fields _ _ _ Hstat) as (Hname & c & Hattr' & Hcompl).
    rewrite Hattr in Hattr'. injection Hattr' as <-.
    exists a. split; [by eapply list_elem_of_lookup_2 |]. done.
Qed.

(** C9. Every stats entry takes one catalog slot, placeholder or not:
    after [n] entries the names left are the catalog without its first
    [n] slots. Only the entries on real slots give an [AreaStats]: the
    areas are as many as the real slots among the first [n], they carry
    catalog names only, and the totals are the sums of [time_played] and
    [deaths] over the areas. If all slots reached are placeholders the
    areas are empty and the totals are zero. *)
Theorem parse_areas_placeholders_and_totals (all_saves : list Element)
    (save_id : Z) (root : Element) (sf : SaveFile) :
  py_index all_saves save_id = Ok root →
  parse_areas int all_saves save_id = Ok sf →
  let es := scored_entries root in
  (∃ st, root_loop int (Loc.mk (reverse chapter_catalog) 0 0 [] false)
           (children root) = Ok st
         ∧ Loc.area_names st = reverse (drop (length es) chapter_catalog)
         ∧ length (Loc.area_names st) = (33 - length es)%nat)
  ∧ length (areas sf)
    = length (List.filter (λ slot : option string, bool_decide (slot ≠ None))
                (take (length es) chapter_catalog))
  ∧ Forall (λ a, Some (name a) ∈ chapter_catalog) (areas sf)
  ∧ total_time sf = sum_of time_played (areas sf)
  ∧ total_deaths sf = sum_of deaths (areas sf)
  ∧ (Forall (λ slot, slot = None) (take (length es) chapter_catalog) →
     areas sf = [] ∧ total_time sf = 0 ∧ total_deaths sf = 0).
Proof.
  intros Hroot Hrun es.
  destruct (parse_areas_ok _ _ _ _ Hroot Hrun)
    as (Hlen & _ & Hareas & Ht & Hd & _ & st & Hloop & Hnames).
  fold es in Hlen, Hareas, Hnames.
  split.
  { exists st. split; [exact Hloop |]. split; [exact Hnames |].
    rewrite Hnames, length_reverse, length_drop. reflexivity. }
  split.
  { rewrite (Forall2_length _ _ _ Hareas). apply real_pairs_length. }
  split.
  { apply Forall_forall. intros a Hin.
    apply list_elem_of_lookup in Hin as [j Hj].
    destruct (Forall2_lookup_l _ _ _ _ _ Hareas Hj) as ([nm e] & Hp & Hstat).
    simpl in Hstat. apply stat_of_fields in Hstat as [-> _].
    apply list_elem_of_lookup_2, real_pairs_lookup in Hp as (i & Hslot & _).
    by eapply catalog_names. }
  split; [exact Ht |]. split; [exact Hd |].
  intros Hall. apply real_pairs_placeholders in Hall.
  rewrite Hall in Hareas. apply Forall2_nil_inv_r in Hareas.
  rewrite Ht, Hd, Hareas. done.
Qed.

End SaveParserFacts.

(** *** Indexing *)

Ltac split_comparisons :=
  repeat match goal with
    | |- context [?a <? ?b] => destruct (Z.ltb_spec a b)
    | |- context [?a <=? ?b] => destruct (Z.leb_spec a b)
    end;
  simpl; try lia.

Lemma py_index_nat {A : Type} (xs : list A) (i : nat) :
  py_index xs (Z.of_nat i)
  = match xs !! i with Some x => Ok x | None => Raise IndexError end.
Proof.
  unfold py_index. split_comparisons.
  - rewrite (proj2 (lookup_ge_None xs i)) by lia. reflexivity.
  - by rewrite Nat2Z.id.
Qed.

Lemma py_index_out_of_range {A : Type} (xs : list A) (i : Z) :
  i < - Z.of_nat (length xs) ∨ Z.of_nat (length xs) ≤ i →
  py_index xs i = Raise IndexError.
Proof. intros Hi. unfold py_index. split_comparisons; reflexivity. Qed.

Lemma py_index_from_end {A : Type} (xs : list A) (i : Z) :
  - Z.of_nat (length xs) ≤ i < 0 →
  py_index xs i = py_index xs (Z.of_nat (length xs) + i)
  ∧ ∃ x, py_index xs i = Ok x.
Proof.
  intros Hi. unfold py_index.
  rewrite (Z.add_comm (Z.of_nat (length xs)) i).
  split_comparisons. split; [reflexivity |].
  destruct (lookup_lt_is_Some_2 xs (Z.to_nat (i + Z.of_nat (length xs))))
    as [x Hx]; [lia |].
  rewrite Hx. eauto.
Qed.

Lemma py_index_Forall2 {A B : Type} (R : A → B → Prop) (xs : list A)
    (ys : list B) (i : Z) :
  Forall2 R xs ys → result_rel R (py_index xs i) (py_index ys i).
Proof.
  intros Hall. unfold py_index.
  rewrite <- (Forall2_length _ _ _ Hall).
  set (j := if i <? 0 then i + Z.of_nat (length xs) else i).
  destruct ((j <? 0) || (Z.of_nat (length xs) <=? j)); [reflexivity |].
  destruct (xs !! Z.to_nat j) as [x|] eqn:Hx.
  - destruct (Forall2_lookup_l _ _ _ _ _ Hall Hx) as (y & -> & Hxy). exact Hxy.
  - apply lookup_ge_None in Hx.
    rewrite (proj2 (lookup_ge_None ys _)) by (rewrite <- (Forall2_length _ _ _ Hall); lia).
    reflexivity.
Qed.

Lemma for_each_rel {S1 S2 A B : Type} (R : S1 → S2 → Prop) (Q : A → B → Prop)
    (body1 : S1 → A → result S1) (body2 : S2 → B → result S2)
    (xs : list A) (ys : list B) :
  (∀ st1 st2 x y, R st1 st2 → Q x y →
                  result_rel R (body1 st1 x) (body2 st2 y)) →
  Forall2 Q xs ys →
  ∀ st1 st2, R st1 st2 →
             result_rel R (for_each body1 st1 xs) (for_each body2 st2 ys).
Proof.
  intros Hbody Hall. induction Hall as [|x y xs ys Hxy _ IH]; intros st1 st2 Hst.
  - exact Hst.
  - simpl. specialize (Hbody st1 st2 x y Hst Hxy).
    destruct (body1 st1 x) as [st1'|e1], (body2 st2 y) as [st2'|e2];
      simpl in *; try contradiction; [by apply IH | exact Hbody].
Qed.

Lemma result_rel_eq {A : Type} (r1 r2 : result A) :
  result_rel eq r1 r2 → r1 = r2.
Proof. destruct r1, r2; simpl; intros H; by (contradiction || subst). Qed.

Section SaveParserRelations.

Variable int : string → option Z.

(** *** Later modes *)

Lemma area_body_same_first_mode (st : Loc.t) (a b : Element) :
  same_first_mode a b → area_body int st a = area_body int st b.
Proof.
  unfold same_first_mode, area_body. intros Hab.
  change 0 with (Z.of_nat 0). rewrite !py_index_nat, Hab. reflexivity.
Qed.

Lemma root_loop_same_scored_part (cs ds : list Element) (st : Loc.t) :
  Forall2 (λ c d, tag c = tag d
                  ∧ (tag c = "Areas" →
                     Forall2 same_first_mode (children c) (children d)))
    cs ds →
  root_loop int st cs = root_loop int st ds.
Proof.
  intros Hall. induction Hall as [|c d cs ds [Htag Hareas] _ IH]; [reflexivity |].
  simpl. rewrite <- Htag.
  destruct (String.eqb (tag c) "Areas") eqn:Hc; [| exact IH].
  apply String.eqb_eq in Hc. apply result_rel_eq.
  apply (for_each_rel eq same_first_mode); [| by apply Hareas | reflexivity].
  intros st1 st2 x y <- Hxy.
  rewrite (area_body_same_first_mode st1 x y Hxy).
  by destruct (area_body int st1 y).
Qed.

(** C2. Only the stats under the first child of an area entry are
    scored. For every area entry, each stats entry under its first child
    pops one catalog name, and the entries that meet a real chapter give
    one [AreaStats] each, read from that entry and added to the totals;
    the children after the first are not read. So the returned areas are
    exactly those of the first-child entries, the totals are their sums,
    and whatever children follow the first, and whatever they hold, the
    names popped, the areas, the totals and the completion flag are the
    same, and so is the returned [SaveFile] (or the exception). *)
Theorem later_modes_ignored (saves1 saves2 : list Element) (save_id : Z) :
  Forall2 same_scored_part saves1 saves2 →
  parse_areas int saves1 save_id = parse_areas int saves2 save_id
  ∧ Forall2 (λ r1 r2, ∀ st, root_loop int st (children r1)
                            = root_loop int st (children r2))
      saves1 saves2
  ∧ (∀ (area mode : Element) (later : list Element)
       (names : list (option string)) (st st' : Loc.t),
        children area = mode :: later →
        Loc.area_names st = reverse names →
        area_body int st area = Ok st' →
        (length (children mode) ≤ length names)%nat
        ∧ Loc.area_names st' = reverse (drop (length (children mode)) names)
        ∧ ∃ new,
            Forall2 (λ a p, stat_of int p.1 p.2 = Some a) new
              (real_pairs names (children mode))
            ∧ Loc.areas st' = Loc.areas st ++ new
            ∧ Loc.total_time st' = Loc.total_time st + sum_of time_played new
            ∧ Loc.total_deaths st'
              = Loc.total_deaths st + sum_of deaths new)
  ∧ (∀ (root : Element) (sf : SaveFile),
        py_index saves1 save_id = Ok root →
        parse_areas int saves1 save_id = Ok sf →
        Forall2 (λ a p, stat_of int p.1 p.2 = Some a) (areas sf)
          (real_pairs chapter_catalog (scored_entries root))
        ∧ total_time sf = sum_of time_played (areas sf)
        ∧ total_deaths sf = sum_of deaths (areas sf)
        ∧ ∃ st, root_loop int (Loc.mk (reverse chapter_catalog) 0 0 [] false)
                  (children root) = Ok st
                ∧ Loc.area_names st
                  = reverse (drop (length (scored_entries root))
                               chapter_catalog)).
Proof.
  intros Hall. split; [| split; [| split]].
  - unfold parse_areas.
    pose proof (py_index_Forall2 _ _ _ save_id Hall) as Hidx.
    destruct (py_index saves1 save_id) as [r1|e1],
      (py_index saves2 save_id) as [r2|e2]; simpl in *;
      try contradiction; [| by subst].
    by rewrite (root_loop_same_scored_part _ _ _ Hidx).
  - eapply Forall2_impl; [exact Hall |].
    intros r1 r2 Hr st. by apply root_loop_same_scored_part.
  - intros area mode later names st st' Hchildren Hnames Hrun.
    apply area_body_ok in Hrun. unfold first_mode_stats in Hrun.
    rewrite Hchildren in Hrun.
    destruct (stats_loop_ok int _ names st st' Hnames Hrun)
      as (Hlen & Hleft & new & Hnew & Ha & Ht & Hd & _).
    split; [exact Hlen |]. split; [exact Hleft |].
    exists new. auto.
  - intros root sf Hroot Hrun.
    destruct (parse_areas_ok int _ _ _ _ Hroot Hrun)
      as (_ & _ & Hareas & Ht & Hd & _ & Hloop).
    auto.
Qed.

(** *** Forward index *)

Lemma drop_catalog_cons (i : nat) (slot : option string) :
  chapter_catalog !! i = Some slot →
  drop i chapter_catalog = slot :: drop (S i) chapter_catalog.
Proof. intros H. by rewrite (drop_S _ _ _ H). Qed.

Lemma stats_body_agrees (st : Loc.t) (ist : nat * Loc.t) (e : Element) :
  cursor_agrees st ist →
  result_rel cursor_agrees (stats_body int st e)
    (stats_body_indexed int ist e).
Proof.
  destruct ist as [i ist]. intros (Hn & Hd & Ht & Ha & Hg). simpl in *.
  unfold stats_body, stats_body_indexed.
  rewrite py_index_nat, Hn.
  destruct (chapter_catalog !! i) as [slot|] eqn:Hslot.
  - rewrite (drop_catalog_cons i slot Hslot), py_pop_reverse_cons. simpl.
    destruct slot as [nm|]; [| by repeat split].
    destruct (dict_get (attrib e) "Completed") as [c|]; [simpl | reflexivity].
    destruct (dict_get (attrib e) "TimePlayed") as [tp|]; [simpl | reflexivity].
    destruct (py_int int tp) as [t|]; [simpl | reflexivity].
    destruct (dict_get (attrib e) "Deaths") as [d|]; [simpl | reflexivity].
    destruct (py_int int d) as [n|]; [simpl | reflexivity].
    rewrite Hd, Ht, Ha, Hg. repeat split.
    by destruct (String.eqb c "true"), (String.eqb nm "Farewell"),
      (Loc.game_completed ist).
  - apply lookup_ge_None in Hslot.
    rewrite drop_ge by exact Hslot. reflexivity.
Qed.

Lemma stats_loop_agrees (es : list Element) (st : Loc.t) (ist : nat * Loc.t) :
  cursor_agrees st ist →
  result_rel cursor_agrees (for_each (stats_body int) st es)
    (for_each (stats_body_indexed int) ist es).
Proof.
  intros Hst.
  apply (for_each_rel cursor_agrees eq); [| by apply Forall_Forall2_diag, Forall_true | exact Hst].
  intros st1 st2 x y H12 <-. by apply stats_body_agrees.
Qed.

Lemma area_body_agrees (st : Loc.t) (ist : nat * Loc.t) (area : Element) :
  cursor_agrees st ist →
  result_rel cursor_agrees (area_body int st area)
    (area_body_indexed int ist area).
Proof.
  intros Hst. unfold area_body, area_body_indexed.
  destruct (py_index (children area) 0) as [mode|err]; [simpl | reflexivity].
  by apply stats_loop_agrees.
Qed.

Lemma root_loop_agrees (cs : list Element) (st : Loc.t) (ist : nat * Loc.t) :
  cursor_agrees st ist →
  result_rel cursor_agrees (root_loop int st cs)
    (root_loop_indexed int ist cs).
Proof.
  intros Hst. induction cs as [|child cs IH]; [exact Hst |].
  simpl. destruct (String.eqb (tag child) "Areas"); [| exact IH].
  apply (for_each_rel cursor_agrees eq); [| by apply Forall_Forall2_diag, Forall_true | exact Hst].
  intros st1 st2 x y H12 <-. by apply area_body_agrees.
Qed.

(** C3. Popping names from the reversed catalog and reading the catalog
    forward through an index that counts the stats entries processed
    give the same result on every input: the same [SaveFile], or the same
    exception. *)
Theorem parse_areas_indexed_same (all_saves : list Element) (save_id : Z) :
  parse_areas int all_saves save_id = parse_areas_indexed int all_saves save_id.
Proof.
  unfold parse_areas, parse_areas_indexed.
  destruct (py_index all_saves save_id) as [root|err]; [simpl | reflexivity].
  pose proof (root_loop_agrees (children root)
                (Loc.mk (reverse chapter_catalog) 0 0 [] false)
                (O, Loc.mk [] 0 0 [] false)) as Hloop.
  destruct (root_loop int _ (children root)) as [st|e1],
    (root_loop_indexed int _ (children root)) as [[i ist]|e2]; simpl in *.
  - destruct Hloop as (_ & Hd & Ht & Ha & Hg); [by repeat split |].
    simpl in *. by rewrite Hd, Ht, Ha, Hg.
  - by destruct Hloop.
  - by destruct Hloop.
  - by rewrite Hloop.
Qed.

(** *** Slot selection *)

(** C10, as the code has it. A [save_id] of at least [n], or below [-n],
    raises [IndexError]. A [save_id] from [-n] to [-1] raises nothing for
    the index: it selects the save [n + save_id], counted from the end,
    and the result carries the negative [id_]. *)
Theorem parse_areas_slot_range (all_saves : list Element) (save_id : Z) :
  let n := Z.of_nat (length all_saves) in
  (save_id < - n ∨ n ≤ save_id →
   parse_areas int all_saves save_id = Raise IndexError)
  ∧ (- n ≤ save_id < 0 →
     parse_areas int all_saves save_id
     = with_id save_id (parse_areas int all_saves (n + save_id))).
Proof.
  intros n. subst n. split; intros Hid; unfold parse_areas.
  - by rewrite py_index_out_of_range.
  - destruct (py_index_from_end all_saves save_id Hid) as [<- [root ->]].
    simpl. by destruct (root_loop int _ (children root)).
Qed.

End SaveParserRelations.

(** ** Instances on the example data *)

Example parse_doc_two :
  parse_areas int_literal [doc_two] 0 = Ok prologue_only.
Proof. vm_compute. reflexivity. Qed.

Example parse_doc_fresh :
  parse_areas int_literal [doc_fresh] 0 = Ok (mkSaveFile 0 false 0 0 []).
Proof. vm_compute. reflexivity. Qed.

Example find_diff_fixtures :
  find_diff 50000000 30000000 = "2.000" ∧ find_diff 30000000 50000000 = "-2.000".
Proof. split; vm_compute; reflexivity. Qed.

(** C1 as stated fails. With two stats entries the code returns one
    "Prologue" area read from the first entry; giving entry [i] the slot
    [33 - 1 - i] would meet two placeholders and return no area. *)
Lemma parse_areas_not_reversed :
  parse_areas int_literal [doc_two] 0 = Ok prologue_only
  ∧ ¬ Forall2 (λ a p, stat_of int_literal p.1 p.2 = Some a)
        (areas prologue_only)
        (real_pairs (reverse chapter_catalog) (scored_entries doc_two)).
Proof.
  split; [vm_compute; reflexivity |].
  intros H. apply Forall2_length in H. vm_compute in H. discriminate.
Qed.

Lemma parse_areas_pairs_forward_witness :
  py_index [doc_two] 0 = Ok doc_two
  ∧ parse_areas int_literal [doc_two] 0 = Ok prologue_only
  ∧ (length (scored_entries doc_two) ≤ 33)%nat
  ∧ Forall2 (λ a p, stat_of int_literal p.1 p.2 = Some a)
      (areas prologue_only)
      (real_pairs chapter_catalog (scored_entries doc_two)).
Proof.
  assert (H1 : py_index [doc_two] 0 = Ok doc_two) by reflexivity.
  assert (H2 : parse_areas int_literal [doc_two] 0 = Ok prologue_only)
    by (vm_compute; reflexivity).
  split; [exact H1 |]. split; [exact H2 |].
  destruct (parse_areas_pairs_forward int_literal [doc_two] 0 doc_two
              prologue_only H1 H2) as (Hlen & Hpairs & _).
  split; [exact Hlen | exact Hpairs].
Defined.

Lemma later_modes_ignored_witness :
  Forall2 same_scored_part [doc_modes] [doc_modes_pruned]
  ∧ parse_areas int_literal [doc_modes] 0
    = parse_areas int_literal [doc_modes_pruned] 0
  ∧ parse_areas int_literal [doc_modes] 0 = Ok prologue_and_1a
  ∧ Forall2 (λ a p, stat_of int_literal p.1 p.2 = Some a)
      (areas prologue_and_1a)
      (real_pairs chapter_catalog (scored_entries doc_modes)).
Proof.
  assert (H : Forall2 same_scored_part [doc_modes] [doc_modes_pruned]).
  { repeat constructor; intros; repeat constructor. }
  assert (Hrun : parse_areas int_literal [doc_modes] 0 = Ok prologue_and_1a)
    by (vm_compute; reflexivity).
  destruct (later_modes_ignored int_literal [doc_modes] [doc_modes_pruned] 0 H)
    as (Hsame & _ & _ & Hscored).
  destruct (Hscored doc_modes prologue_and_1a eq_refl Hrun) as (Hareas & _).
  split; [exact H |]. split; [exact Hsame |]. split; [exact Hrun |].
  exact Hareas.
Defined.

Lemma generate_results_chapter_rows_witness :
  length (areas save_three_a) = 3%nat
  ∧ length (areas save_three_b) = 3%nat
  ∧ length (time_rows (generate_results save_three_a save_three_b)) = 4%nat
  ∧ length (death_rows (generate_results save_three_a save_three_b)) = 4%nat
  ∧ (chapter <$> time_rows (generate_results save_three_a save_three_b))
    = ["Prologue"; "1a"; "1b"; "TOTAL TIME"].
Proof.
  split; [reflexivity |]. split; [reflexivity |].
  destruct (generate_results_chapter_rows save_three_a save_three_b)
    as (_ & _ & _ & Hthree).
  destruct Hthree as (Ht & Hd & Hc & _);
    [reflexivity | reflexivity | repeat constructor | repeat constructor |].
  split; [exact Ht |]. split; [exact Hd | exact Hc].
Defined.

Lemma game_completed_iff_farewell_witness :
  py_index [doc_full] 0 = Ok doc_full
  ∧ parse_areas int_literal [doc_full] 0
    = Ok (mkSaveFile 0 true 260 26
            ((λ nm, mkAreaStats nm true 10 1)
               <$> omap id (take 31 chapter_catalog)))
  ∧ ∃ e, scored_entries doc_full !! 30%nat = Some e
         ∧ attrib e !! "Completed" = Some "true".
Proof.
  assert (H1 : py_index [doc_full] 0 = Ok doc_full) by reflexivity.
  assert (H2 : parse_areas int_literal [doc_full] 0
    = Ok (mkSaveFile 0 true 260 26
            ((λ nm, mkAreaStats nm true 10 1)
               <$> omap id (take 31 chapter_catalog))))
    by (vm_compute; reflexivity).
  split; [exact H1 |]. split; [exact H2 |].
  apply (proj1 (game_completed_iff_farewell int_literal [doc_full] 0 doc_full
                  _ H1 H2)).
  reflexivity.
Defined.

Lemma parse_areas_placeholders_and_totals_witness :
  py_index [doc_two] 0 = Ok doc_two
  ∧ parse_areas int_literal [doc_two] 0 = Ok prologue_only
  ∧ length (areas prologue_only) = 1%nat
  ∧ total_time prologue_only = sum_of time_played (areas prologue_only)
  ∧ total_deaths prologue_only = sum_of deaths (areas prologue_only).
Proof.
  assert (H1 : py_index [doc_two] 0 = Ok doc_two) by reflexivity.
  assert (H2 : parse_areas int_literal [doc_two] 0 = Ok prologue_only)
    by (vm_compute; reflexivity).
  split; [exact H1 |]. split; [exact H2 |].
  destruct (parse_areas_placeholders_and_totals int_literal [doc_two] 0
              doc_two prologue_only H1 H2) as (_ & Hlen & _ & Ht & Hd & _).
  split; [exact Hlen |]. split; [exact Ht | exact Hd].
Defined.

(** C10 as stated fails. With one loaded save, slot [-1] is outside
    [0..0], yet the code raises nothing: it parses the last save. *)
Lemma negative_slot_selects_a_save :
  ¬ (0 ≤ -1 < Z.of_nat (length [doc_one]))
  ∧ parse_areas int_literal [doc_one] (-1)
    = Ok (mkSaveFile (-1) false 100 2 [mkAreaStats "Prologue" true 100 2]).
Proof. split; [lia | vm_compute; reflexivity]. Qed.

Lemma parse_areas_slot_range_witness :
  (1 ≤ 1 ∧ parse_areas int_literal [doc_one] 1 = Raise IndexError)
  ∧ (-1 ≤ -1 < 0
     ∧ parse_areas int_literal [doc_one] (-1)
       = with_id (-1) (parse_areas int_literal [doc_one] (1 + -1))).
Proof.
  split; (split; [lia |]).
  - apply (proj1 (parse_areas_slot_range int_literal [doc_one] 1)).
    right. simpl. lia.
  - apply (proj2 (parse_areas_slot_range int_literal [doc_one] (-1))).
    simpl. lia.
Defined.

(** * Further properties *)

(** ** TimeCodec: reading a clock string back *)

Lemma read_fold_app (st : Z * Z) (s1 s2 : string) :
  read_fold st (s1 +:+ s2) = read_fold (read_fold st s1) s2.
Proof.
  revert st. induction s1 as [|c s1 IH]; intros st; [reflexivity |].
  rewrite append_cons. simpl. apply IH.
Qed.

Lemma read_step_pretty_char (st : Z * Z) (d : N) :
  (d < 10)%N →
  read_step st (pretty_N_char d) = (st.1, 10 * st.2 + Z.of_N d).
Proof.
  intros Hd.
  assert (d = 0 ∨ d = 1 ∨ d = 2 ∨ d = 3 ∨ d = 4 ∨ d = 5 ∨ d = 6 ∨ d = 7
          ∨ d = 8 ∨ d = 9)%N as Hcases by lia.
  repeat (destruct Hcases as [->|Hcases]); try subst d; reflexivity.
Qed.

Lemma read_step_digit_char (st : Z * Z) (d : Z) :
  0 ≤ d < 10 → read_step st (digit_char d) = (st.1, 10 * st.2 + d).
Proof.
  intros Hd.
  assert (d = 0 ∨ d = 1 ∨ d = 2 ∨ d = 3 ∨ d = 4 ∨ d = 5 ∨ d = 6 ∨ d = 7
          ∨ d = 8 ∨ d = 9) as Hcases by lia.
  repeat (destruct Hcases as [->|Hcases]); try subst d; reflexivity.
Qed.

Lemma pretty_N_go_app (x : N) (s : string) :
  pretty_N_go x s = pretty_N_go x EmptyString +:+ s.
Proof.
  revert s. induction (N.lt_wf_0 x) as [x _ IH]; intros s.
  destruct (decide (x = 0)%N) as [->|Hx]; [by rewrite !pretty_N_go_0 |].
  assert (Hlt : (x `div` 10 < x)%N) by (apply N.div_lt; lia).
  rewrite (pretty_N_go_step x s), (pretty_N_go_step x EmptyString) by lia.
  rewrite (IH _ Hlt (String _ s)), (IH _ Hlt (String _ EmptyString)).
  rewrite append_assoc. reflexivity.
Qed.

Lemma read_pretty_N_go (x : N) (acc : Z) :
  read_fold (acc, 0) (pretty_N_go x EmptyString) = (acc, Z.of_N x).
Proof.
  induction (N.lt_wf_0 x) as [x _ IH].
  destruct (decide (x = 0)%N) as [->|Hx]; [reflexivity |].
  rewrite pretty_N_go_step, pretty_N_go_app, read_fold_app by lia.
  rewrite IH by (apply N.div_lt; lia). simpl.
  rewrite read_step_pretty_char by (apply N.mod_lt; lia). simpl.
  f_equal. rewrite (N.div_mod x 10) at 3 by lia. lia.
Qed.

Lemma read_pretty (n acc : Z) :
  0 ≤ n → read_fold (acc, 0) (pretty n) = (acc, n).
Proof.
  intros Hn. destruct n as [|p|p]; [reflexivity | | lia].
  change (pretty (Z.pos p)) with (pretty (N.pos p)).
  unfold pretty, pretty_N. rewrite decide_False by discriminate.
  apply read_pretty_N_go.
Qed.

Lemma read_two_digits (n acc : Z) :
  0 ≤ n < 100 → read_fold (acc, 0) (two_digits n) = (acc, n).
Proof.
  intros Hn. unfold two_digits. simpl.
  rewrite !read_step_digit_char by (Z.to_euclidean_division_equations; lia).
  simpl. f_equal. Z.to_euclidean_division_equations; lia.
Qed.

Lemma read_three_digits (n acc : Z) :
  0 ≤ n < 1000 → read_fold (acc, 0) (three_digits n) = (acc, n).
Proof.
  intros Hn. unfold three_digits, two_digits. simpl.
  rewrite !read_step_digit_char by (Z.to_euclidean_division_equations; lia).
  simpl. f_equal. Z.to_euclidean_division_equations; lia.
Qed.

Lemma read_colon (acc cur : Z) :
  read_fold (acc, cur) ":" = ((acc + cur) * 60, 0).
Proof. reflexivity. Qed.

Lemma read_point (acc cur : Z) :
  read_fold (acc, cur) "." = ((acc + cur) * 1000, 0).
Proof. reflexivity. Qed.

Lemma read_clock_clock (total_ms : Z) :
  0 ≤ total_ms → read_clock (clock total_ms) = total_ms.
Proof.
  intros Hms. unfold read_clock, clock.
  pose proof (Z.mod_pos_bound (total_ms `div` 60000) 60).
  pose proof (Z.mod_pos_bound (total_ms `div` 1000) 60).
  pose proof (Z.mod_pos_bound total_ms 1000).
  assert (0 ≤ total_ms `div` 3600000) by (apply Z.div_pos; lia).
  destruct (Z.ltb_spec 0 (total_ms `div` 3600000));
    [| destruct (Z.ltb_spec 0 ((total_ms `div` 60000) `mod` 60))];
    rewrite !read_fold_app, read_pretty by lia;
    rewrite ?read_colon, ?read_two_digits by lia;
    rewrite ?read_colon, ?read_two_digits by lia;
    rewrite read_point, read_three_digits by lia;
    cbn [fst snd]; Z.to_euclidean_division_equations; lia.
Qed.

Lemma read_clock_parse_time (raw : Z) :
  0 ≤ raw → read_clock (parse_time raw) = raw `div` 10000.
Proof.
  intros Hraw. rewrite parse_time_clock. unfold format_time.
  apply read_clock_clock, Z.div_pos; lia.
Qed.

Lemma parse_time_eq_iff (time_a time_b : Z) :
  0 ≤ time_a → 0 ≤ time_b →
  (parse_time time_a = parse_time time_b
   ↔ time_a `div` 10000 = time_b `div` 10000).
Proof.
  intros Ha Hb. split.
  - intros Heq. rewrite <- (read_clock_parse_time time_a Ha),
      <- (read_clock_parse_time time_b Hb). by rewrite Heq.
  - intros Heq. rewrite !parse_time_clock. unfold format_time. by rewrite Heq.
Qed.

(** X1. Two non-negative times are rendered alike exactly when they are
    the same number of whole milliseconds: the clock string determines
    the time up to the ticks below a millisecond, which are dropped. *)
Theorem parse_time_injective (time_a time_b : Z) :
  0 ≤ time_a → 0 ≤ time_b →
  (parse_time time_a = parse_time time_b
   ↔ time_a `div` 10000 = time_b `div` 10000).
Proof. apply parse_time_eq_iff. Qed.

(** X2. A negative time is rendered without a sign and without hours: as
    the clock of its remainder modulo one hour. *)
Theorem parse_time_negative (raw : Z) :
  raw < 0 → parse_time raw = parse_time (raw `mod` 36000000000).
Proof.
  intros Hraw. rewrite !parse_time_clock. unfold format_time, clock.
  set (ms := raw `div` 10000).
  set (ms' := (raw `mod` 36000000000) `div` 10000).
  assert (Hh : ms `div` 3600000 < 0)
    by (subst ms; Z.to_euclidean_division_equations; lia).
  assert (Hh' : ms' `div` 3600000 = 0)
    by (subst ms'; Z.to_euclidean_division_equations; lia).
  assert (Hm : (ms `div` 60000) `mod` 60 = (ms' `div` 60000) `mod` 60)
    by (subst ms ms'; Z.to_euclidean_division_equations; lia).
  assert (Hs : (ms `div` 1000) `mod` 60 = (ms' `div` 1000) `mod` 60)
    by (subst ms ms'; Z.to_euclidean_division_equations; lia).
  assert (Hms : ms `mod` 1000 = ms' `mod` 1000)
    by (subst ms ms'; Z.to_euclidean_division_equations; lia).
  rewrite Hh', <- Hm, <- Hs, <- Hms.
  destruct (Z.ltb_spec 0 (ms `div` 3600000)); [lia | reflexivity].
Qed.

(** X3. [find_diff] shows the zero clock without a sign exactly when
    [time_a] is at or above [time_b] by less than a millisecond. *)
Theorem find_diff_zero (time_a time_b : Z) :
  find_diff time_a time_b = "0.000" ↔ 0 ≤ time_a - time_b < 10000.
Proof.
  unfold find_diff. rewrite max_min_abs.
  change "0.000" with (parse_time 0) at 1.
  destruct (Z.ltb_spec time_a time_b) as [Hlt|Hge]; simpl.
  - split; [| lia]. intros Heq.
    assert (Hminus : starts_with_minus
                       ("-" +:+ parse_time (Z.abs (time_a - time_b))) = true)
      by reflexivity.
    rewrite Heq in Hminus. discriminate.
  - rewrite append_empty_l, parse_time_eq_iff by lia.
    change (0 `div` 10000) with 0. split; intros H.
    + apply Z.div_small_iff in H; lia.
    + apply Z.div_small. lia.
Qed.

(** ** Loading the saves *)

Section LoaderFacts.

Variable et_parse : string → option Element.

Lemma load_loop_loaded (dir : gmap string string) (n : nat) :
  ∀ (s c : Z) (acc : list Element) (c' : Z) (saves : list Element),
    load_loop et_parse dir (seqZ s (Z.of_nat n)) c acc = Loaded (c', saves) →
    ∃ new,
      saves = acc ++ new
      ∧ c' = c + Z.of_nat (length new)
      ∧ (length new ≤ n)%nat
      ∧ (∀ (i : nat) doc, new !! i = Some doc →
                          file_parses et_parse dir (s + Z.of_nat i) doc)
      ∧ ((length new < n)%nat →
         dir !! save_name (s + Z.of_nat (length new)) = None).
Proof.
  induction n as [|n IH]; intros s c acc c' saves Hrun.
  - simpl in Hrun. injection Hrun as <- <-. exists [].
    rewrite app_nil_r. simpl. repeat split; [lia | lia | | lia].
    intros i doc Hi. discriminate.
  - rewrite seqZ_cons in Hrun by lia. simpl in Hrun.
    replace (Z.pred (Z.of_nat (S n))) with (Z.of_nat n) in Hrun by lia.
    destruct (dir !! save_name s) as [content|] eqn:Hfile.
    + destruct (et_parse content) as [doc|] eqn:Hparse; [| discriminate].
      apply IH in Hrun as (new & -> & -> & Hlen & Hfiles & Hstop).
      exists (doc :: new). rewrite <- app_assoc. simpl.
      repeat split; [lia | lia | |].
      * intros [|i] d Hi; simpl in Hi.
        -- injection Hi as <-. exists content.
           by rewrite Z.add_0_r.
        -- replace (s + Z.of_nat (S i)) with (Z.succ s + Z.of_nat i) by lia.
           by apply Hfiles.
      * intros Hlt.
        replace (s + Z.of_nat (S (length new)))
          with (Z.succ s + Z.of_nat (length new)) by lia.
        apply Hstop. lia.
    + injection Hrun as <- <-. exists []. rewrite app_nil_r. simpl.
      repeat split; [lia | lia | |].
      * intros i doc Hi. discriminate.
      * intros _. by rewrite Z.add_0_r.
Qed.

Lemma load_loop_error (dir : gmap string string) (n : nat) :
  ∀ (s c : Z) (acc : list Element),
    load_loop et_parse dir (seqZ s (Z.of_nat n)) c acc = ParseError
    ↔ ∃ (k : nat) content,
        (k < n)%nat
        ∧ (∀ i : nat, (i < k)%nat →
                      ∃ doc, file_parses et_parse dir (s + Z.of_nat i) doc)
        ∧ dir !! save_name (s + Z.of_nat k) = Some content
        ∧ et_parse content = None.
Proof.
  induction n as [|n IH]; intros s c acc.
  - simpl. split; [discriminate | intros (k & _ & Hk & _); lia].
  - rewrite seqZ_cons by lia. simpl.
    replace (Z.pred (Z.of_nat (S n))) with (Z.of_nat n) by lia.
    destruct (dir !! save_name s) as [content|] eqn:Hfile.
    + destruct (et_parse content) as [doc|] eqn:Hparse.
      * rewrite IH. split.
        -- intros (k & bad & Hk & Hbefore & Hbad & Hnone).
           exists (S k), bad. split; [lia |].
           replace (s + Z.of_nat (S k)) with (Z.succ s + Z.of_nat k) by lia.
           split; [| done].
           intros [|i] Hi.
           ++ exists doc, content. by rewrite Z.add_0_r.
           ++ replace (s + Z.of_nat (S i)) with (Z.succ s + Z.of_nat i) by lia.
              apply Hbefore. lia.
        -- intros ([|k] & bad & Hk & Hbefore & Hbad & Hnone).
           ++ rewrite Z.add_0_r, Hfile in Hbad. injection Hbad as <-.
              congruence.
           ++ exists k, bad. split; [lia |].
              replace (Z.succ s + Z.of_nat k) with (s + Z.of_nat (S k)) by lia.
              split; [| done].
              intros i Hi.
              replace (Z.succ s + Z.of_nat i) with (s + Z.of_nat (S i)) by lia.
              apply Hbefore. lia.
      * split; [intros _ | done].
        exists O, content. rewrite Z.add_0_r.
        split; [lia |]. split; [intros i Hi; lia | done].
    + split; [discriminate |].
      intros ([|k] & bad & Hk & Hbefore & Hbad & Hnone).
      * rewrite Z.add_0_r, Hfile in Hbad. discriminate.
      * destruct (Hbefore O) as (doc & content & Hc & _); [lia |].
        rewrite Z.add_0_r, Hfile in Hc. discriminate.
Qed.

Lemma load_loop_gap (dir1 dir2 : gmap string string) (k : Z) (n : nat) :
  (∀ i, 0 ≤ i < k → dir1 !! save_name i = dir2 !! save_name i) →
  dir1 !! save_name k = None → dir2 !! save_name k = None →
  ∀ (s c : Z) (acc : list Element),
    0 ≤ s ≤ k →
    load_loop et_parse dir1 (seqZ s (Z.of_nat n)) c acc
    = load_loop et_parse dir2 (seqZ s (Z.of_nat n)) c acc.
Proof.
  intros Hsame Hnone1 Hnone2.
  induction n as [|n IH]; intros s c acc Hs; [reflexivity |].
  rewrite seqZ_cons by lia. simpl.
  replace (Z.pred (Z.of_nat (S n))) with (Z.of_nat n) by lia.
  destruct (decide (s = k)) as [->|Hne].
  - by rewrite Hnone1, Hnone2.
  - rewrite <- (Hsame s) by lia.
    destruct (dir1 !! save_name s) as [content|]; [| reflexivity].
    destruct (et_parse content) as [doc|]; [| reflexivity].
    apply IH. lia.
Qed.

Lemma py_range_seqZ (max_saves : Z) :
  py_range max_saves = seqZ 0 (Z.of_nat (Z.to_nat max_saves)).
Proof.
  unfold py_range. destruct (Z.le_gt_cases 0 max_saves).
  - by rewrite Z2Nat.id.
  - rewrite !seqZ_nil by lia. done.
Qed.

Lemma load_all_saves_inv (dir : gmap string string) (max_saves : Z)
    (saves : list Element) :
  load_all_saves et_parse dir max_saves = Loaded saves →
  ∃ c, load_loop et_parse dir (seqZ 0 (Z.of_nat (Z.to_nat max_saves))) 0 []
       = Loaded (c, saves).
Proof.
  unfold load_all_saves. rewrite py_range_seqZ.
  destruct (load_loop _ _ _ _ _) as [[c l]|]; [| discriminate].
  intros [= ->]. eauto.
Qed.

(** X4. What [load_all_saves] returns is the run of files 0, 1, ... up
    to the first missing one, at most [max_saves] of them: document [i]
    is the parse of file [i], and if fewer than [max_saves] documents were
    loaded, the next file is missing. *)
Theorem load_all_saves_prefix (dir : gmap string string) (max_saves : Z)
    (saves : list Element) :
  load_all_saves et_parse dir max_saves = Loaded saves →
  Z.of_nat (length saves) ≤ Z.max 0 max_saves
  ∧ (∀ (i : nat) doc, saves !! i = Some doc →
                      file_parses et_parse dir (Z.of_nat i) doc)
  ∧ (Z.of_nat (length saves) < max_saves →
     dir !! save_name (Z.of_nat (length saves)) = None).
Proof.
  intros Hload. apply load_all_saves_inv in Hload as [c Hrun].
  apply load_loop_loaded in Hrun as (new & -> & _ & Hlen & Hfiles & Hstop).
  simpl. split; [lia |]. split; [exact Hfiles |].
  intros Hlt. apply Hstop. lia.
Qed.

(** X5. [load_all_saves] raises [ParseError] exactly when a file below
    [max_saves] is malformed and every file before it is there and
    well-formed. *)
Theorem load_all_saves_parse_error (dir : gmap string string)
    (max_saves : Z) :
  load_all_saves et_parse dir max_saves = ParseError
  ↔ ∃ (k : nat) content,
      Z.of_nat k < max_saves
      ∧ (∀ i : nat, (i < k)%nat → ∃ doc, file_parses et_parse dir (Z.of_nat i) doc)
      ∧ dir !! save_name (Z.of_nat k) = Some content
      ∧ et_parse content = None.
Proof.
  unfold load_all_saves. rewrite py_range_seqZ.
  pose proof (load_loop_error dir (Z.to_nat max_saves) 0 0 []) as Herr.
  simpl in Herr.
  destruct (load_loop _ _ _ _ _) as [[c l]|].
  - split; [discriminate |].
    intros (k & content & Hk & Hrest).
    assert (Hex : ∃ (k : nat) content,
               (k < Z.to_nat max_saves)%nat
               ∧ (∀ i : nat, (i < k)%nat →
                             ∃ doc, file_parses et_parse dir (Z.of_nat i) doc)
               ∧ dir !! save_name (Z.of_nat k) = Some content
               ∧ et_parse content = None)
      by (exists k, content; split; [lia | exact Hrest]).
    apply Herr in Hex. discriminate.
  - split; [intros _ | done].
    destruct (proj1 Herr eq_refl) as (k & content & Hk & Hrest).
    exists k, content. split; [lia | exact Hrest].
Qed.

(** X6. A file after the first missing index is never read: two
    directories with the same files below a missing index [k] load alike,
    whatever they hold above [k]. *)
Theorem load_all_saves_stops_at_gap (dir1 dir2 : gmap string string)
    (k max_saves : Z) :
  0 ≤ k →
  (∀ i, 0 ≤ i < k → dir1 !! save_name i = dir2 !! save_name i) →
  dir1 !! save_name k = None → dir2 !! save_name k = None →
  load_all_saves et_parse dir1 max_saves
  = load_all_saves et_parse dir2 max_saves.
Proof.
  intros Hk Hsame Hnone1 Hnone2. unfold load_all_saves.
  rewrite py_range_seqZ.
  by rewrite (load_loop_gap dir1 dir2 k _ Hsame Hnone1 Hnone2 0 0 []) by lia.
Qed.

End LoaderFacts.

(** ** Selecting the slots *)

Lemma py_split_blank_prefix (w s : string) :
  blank w = true → py_split (w +:+ s) = py_split s.
Proof.
  induction w as [|c w IH]; [done |].
  intros H. unfold blank in H. simpl in H. apply andb_prop in H as [Hc Hw].
  rewrite append_cons. simpl. rewrite Hc. by apply IH.
Qed.

Lemma split_token_run (t cur s : string) :
  string_forall (λ c, negb (isspace c)) t = true →
  split_token cur (t +:+ s) = split_token (cur +:+ t) s.
Proof.
  revert cur. induction t as [|c t IH]; intros cur H.
  - by rewrite append_empty_l, append_empty_r.
  - simpl in H. apply andb_prop in H as [Hc Ht].
    rewrite append_cons. simpl.
    apply negb_true_iff in Hc. rewrite Hc, IH by done.
    by rewrite append_assoc.
Qed.

Lemma py_split_token (t s : string) :
  token t = true → py_split (t +:+ s) = split_token t s.
Proof.
  unfold token. intros H. apply andb_prop in H as [Hne Ht].
  destruct t as [|c t]; [discriminate |].
  simpl in Ht. apply andb_prop in Ht as [Hc Ht].
  rewrite append_cons. simpl.
  apply negb_true_iff in Hc. rewrite Hc.
  by rewrite split_token_run.
Qed.

Lemma split_token_blank (cur w s : string) :
  blank w = true → (w = EmptyString → s = EmptyString) →
  split_token cur (w +:+ s) = cur :: py_split s.
Proof.
  intros Hw Hs. destruct w as [|c w].
  - rewrite (Hs eq_refl). reflexivity.
  - unfold blank in Hw. simpl in Hw. apply andb_prop in Hw as [Hc Hw].
    rewrite append_cons. simpl. rewrite Hc.
    by rewrite py_split_blank_prefix.
Qed.

Lemma py_split_spaced (items : list (string * string)) :
  well_spaced items → py_split (spaced items) = items.*1.
Proof.
  induction items as [|[t w] rest IH]; [done |].
  simpl. intros (Ht & Hw & Hlast & Hrest).
  rewrite py_split_token, split_token_blank by
    (try done; intros Hempty; by rewrite (Hlast Hempty)).
  by rewrite IH.
Qed.

Section AskToCompareFacts.

Variable int : string → option Z.

(** X7. [ask_to_compare] reads the two tokens of the line whatever the
    blanks before, between and after them, and raises [ValueError] for a
    line of any other number of tokens, whether or not they are numbers. *)
Theorem ask_to_compare_tokens (w0 : string) (items : list (string * string)) :
  blank w0 = true → well_spaced items →
  ask_to_compare int (w0 +:+ spaced items)
  = match items.*1 with
    | [save_a; save_b] =>
        a ← py_int int save_a; b ← py_int int save_b; Ok (a, b)
    | _ => Raise ValueError
    end.
Proof.
  intros Hw0 Hitems. unfold ask_to_compare.
  by rewrite py_split_blank_prefix, py_split_spaced.
Qed.

End AskToCompareFacts.

(** ** When [parse_areas] returns *)

Section SaveParserOutcome.

Variable int : string → option Z.

Lemma root_loop_container (st : Loc.t) (cs : list Element) :
  root_loop int st cs
  = match List.find (λ child, String.eqb (tag child) "Areas") cs with
    | Some container => for_each (area_body int) st (children container)
    | None => Ok st
    end.
Proof.
  induction cs as [|child cs IH]; [reflexivity |].
  simpl. by destruct (String.eqb (tag child) "Areas").
Qed.

Lemma area_body_flat (st : Loc.t) (area : Element) :
  children area ≠ [] →
  area_body int st area = for_each (stats_body int) st (first_mode_stats area).
Proof.
  unfold area_body, first_mode_stats. intros Hne.
  destruct (children area) as [|mode rest]; [done | reflexivity].
Qed.

Lemma areas_loop_flat (areas : list Element) :
  Forall (λ area, children area ≠ []) areas →
  ∀ st, for_each (area_body int) st areas
        = for_each (stats_body int) st (areas ≫= first_mode_stats).
Proof.
  induction 1 as [|area areas Harea _ IH]; intros st; [reflexivity |].
  change ((area :: areas) ≫= first_mode_stats)
    with (first_mode_stats area ++ (areas ≫= first_mode_stats)).
  rewrite for_each_app. simpl. rewrite (area_body_flat st area Harea).
  destruct (for_each _ st (first_mode_stats area)) as [st1|e];
    [apply IH | reflexivity].
Qed.

Lemma areas_loop_modes (areas : list Element) :
  ∀ st st', for_each (area_body int) st areas = Ok st' →
            Forall (λ area, children area ≠ []) areas.
Proof.
  induction areas as [|area areas IH]; intros st st' Hrun; [constructor |].
  simpl in Hrun. apply bind_Ok_inv in Hrun as (st1 & Hstep & Hrest).
  constructor; [| by eapply IH].
  unfold area_body in Hstep.
  apply bind_Ok_inv in Hstep as (mode & Hmode & _).
  apply py_index_first in Hmode as [rest ->]. done.
Qed.

Lemma root_loop_flat (root : Element) (st : Loc.t) :
  areas_have_modes root →
  root_loop int st (children root)
  = for_each (stats_body int) st (scored_entries root).
Proof.
  unfold areas_have_modes, scored_entries, areas_container.
  rewrite root_loop_container.
  destruct (List.find _ (children root)) as [container|]; [| reflexivity].
  intros Hmodes. by apply areas_loop_flat.
Qed.

Lemma stats_body_complete (st : Loc.t) (e : Element) (slot : option string)
    (names : list (option string)) :
  Loc.area_names st = reverse (slot :: names) →
  match slot with
  | Some nm => is_Some (stat_of int nm e)
  | None => True
  end →
  ∃ st', stats_body int st e = Ok st' ∧ Loc.area_names st' = reverse names.
Proof.
  intros Hnames Hslot. unfold stats_body.
  rewrite Hnames, py_pop_reverse_cons. simpl.
  destruct slot as [nm|]; [| eauto].
  destruct Hslot as [a Ha]. unfold stat_of in Ha.
  unfold dict_get, py_int.
  destruct (attrib e !! "Completed") as [c|]; [simpl in * | discriminate].
  destruct (attrib e !! "TimePlayed") as [tp|]; [simpl in * | discriminate].
  destruct (int tp) as [t|]; [simpl in * | discriminate].
  destruct (attrib e !! "Deaths") as [d|]; [simpl in * | discriminate].
  destruct (int d) as [n|]; [simpl in * | discriminate].
  eauto.
Qed.

Lemma stats_loop_complete (es : list Element) :
  ∀ (names : list (option string)) (st : Loc.t),
    Loc.area_names st = reverse names →
    (length es ≤ length names)%nat →
    Forall (λ p, is_Some (stat_of int p.1 p.2)) (real_pairs names es) →
    ∃ st', for_each (stats_body int) st es = Ok st'.
Proof.
  induction es as [|e es IH]; intros names st Hnames Hlen Hread; [by eexists |].
  destruct names as [|slot names]; [simpl in Hlen; lia |].
  rewrite real_pairs_cons in Hread.
  destruct (stats_body_complete st e slot names Hnames) as (st1 & Hstep & Hn1).
  { destruct slot as [nm|]; [| exact I].
    apply Forall_cons in Hread as [Hhead _]. exact Hhead. }
  simpl. rewrite Hstep. simpl.
  apply (IH names st1 Hn1); [simpl in Hlen; lia |].
  destruct slot as [nm|]; [by apply Forall_cons in Hread as [_ ?] | exact Hread].
Qed.

Lemma real_pairs_take (names : list (option string)) (es : list Element) :
  real_pairs names (take (length names) es) = real_pairs names es.
Proof.
  revert es. induction names as [|slot names IH]; intros es; [by destruct es |].
  destruct es as [|e es]; [reflexivity |].
  simpl. rewrite !real_pairs_cons, IH. reflexivity.
Qed.

(** X8. A document without an "Areas" child is an empty save, not an
    error: no areas, zero totals, not completed. *)
Theorem parse_areas_no_areas (all_saves : list Element) (save_id : Z)
    (root : Element) :
  py_index all_saves save_id = Ok root →
  areas_container root = None →
  parse_areas int all_saves save_id = Ok (mkSaveFile save_id false 0 0 []).
Proof.
  intros Hroot Hnone. unfold parse_areas. rewrite Hroot. simpl.
  rewrite root_loop_container. unfold areas_container in Hnone.
  by rewrite Hnone.
Qed.

(** X9. Only the first "Areas" child of the selected document is read:
    the tag and attributes of the root, its other children and any later
    "Areas" child do not change the result. *)
Theorem parse_areas_first_container (saves1 saves2 : list Element)
    (save_id : Z) (root1 root2 : Element) :
  py_index saves1 save_id = Ok root1 →
  py_index saves2 save_id = Ok root2 →
  areas_container root1 = areas_container root2 →
  parse_areas int saves1 save_id = parse_areas int saves2 save_id.
Proof.
  intros H1 H2 Hsame. unfold parse_areas. rewrite H1, H2. simpl.
  rewrite !root_loop_container. unfold areas_container in Hsame.
  by rewrite Hsame.
Qed.

(** X10. [parse_areas] returns a [SaveFile] exactly when the slot can be
    indexed, every area entry of the "Areas" container has a child, there
    are at most 33 stats entries under the first children, and every
    entry that meets a real chapter has its three attributes, with
    [TimePlayed] and [Deaths] accepted by [int]. *)
Theorem parse_areas_succeeds_iff (all_saves : list Element) (save_id : Z) :
  (∃ sf, parse_areas int all_saves save_id = Ok sf)
  ↔ ∃ root,
      py_index all_saves save_id = Ok root
      ∧ areas_have_modes root
      ∧ (length (scored_entries root) ≤ 33)%nat
      ∧ Forall (λ p, is_Some (stat_of int p.1 p.2))
          (real_pairs chapter_catalog (scored_entries root)).
Proof.
  split.
  - intros [sf Hrun].
    destruct (parse_areas_inv int _ _ _ Hrun) as (root & st & Hroot & Hloop & _).
    exists root. split; [exact Hroot |].
    destruct (parse_areas_ok int _ _ _ _ Hroot Hrun)
      as (Hlen & _ & Hareas & _).
    split; [| split; [exact Hlen |]].
    + unfold areas_have_modes, areas_container.
      rewrite root_loop_container in Hloop.
      destruct (List.find _ (children root)) as [container|]; [| exact I].
      by eapply areas_loop_modes.
    + apply Forall_forall. intros p Hp.
      apply list_elem_of_lookup in Hp as [j Hj].
      destruct (Forall2_lookup_r _ _ _ _ _ Hareas Hj) as (a & _ & Hstat).
      by exists a.
  - intros (root & Hroot & Hmodes & Hlen & Hread).
    unfold parse_areas. rewrite Hroot. simpl.
    rewrite (root_loop_flat root _ Hmodes).
    destruct (stats_loop_complete (scored_entries root) chapter_catalog
                (Loc.mk (reverse chapter_catalog) 0 0 [] false))
      as [st Hst]; [reflexivity | exact Hlen | exact Hread |].
    rewrite Hst. simpl. eauto.
Qed.

(** X11. With more than 33 stats entries, all of them readable, the
    catalog runs out: [parse_areas] raises [IndexError]. *)
Theorem parse_areas_catalog_exhausted (all_saves : list Element)
    (save_id : Z) (root : Element) :
  py_index all_saves save_id = Ok root →
  areas_have_modes root →
  Forall (λ p, is_Some (stat_of int p.1 p.2))
    (real_pairs chapter_catalog (scored_entries root)) →
  (33 < length (scored_entries root))%nat →
  parse_areas int all_saves save_id = Raise IndexError.
Proof.
  intros Hroot Hmodes Hread Hlen.
  unfold parse_areas. rewrite Hroot. simpl.
  rewrite (root_loop_flat root _ Hmodes).
  rewrite <- (take_drop 33 (scored_entries root)), for_each_app.
  rewrite <- (real_pairs_take chapter_catalog) in Hread.
  change (length chapter_catalog) with 33%nat in Hread.
  destruct (stats_loop_complete (take 33 (scored_entries root)) chapter_catalog
              (Loc.mk (reverse chapter_catalog) 0 0 [] false))
    as [st Hst];
    [reflexivity
    | rewrite length_take; change (length chapter_catalog) with 33%nat; lia
    | exact Hread |].
  rewrite Hst. simpl.
  destruct (stats_loop_ok int _ chapter_catalog
              (Loc.mk (reverse chapter_catalog) 0 0 [] false) st eq_refl Hst)
    as (_ & Hnames & _).
  rewrite length_take, Nat.min_l in Hnames by lia.
  destruct (drop 33 (scored_entries root)) as [|e rest] eqn:Hdrop.
  - apply (f_equal length) in Hdrop. rewrite length_drop in Hdrop.
    simpl in Hdrop. lia.
  - simpl. unfold stats_body. rewrite Hnames. reflexivity.
Qed.

End SaveParserOutcome.

(** ** The areas of a parsed save *)

Lemma omap_take_prefix {A B : Type} (f : A → option B) (n : nat) (l : list A) :
  omap f (take n l) = take (length (omap f (take n l))) (omap f l).
Proof.
  rewrite <- (take_drop n l) at 3. rewrite omap_app.
  by rewrite take_app_length.
Qed.

Lemma chapter_names_NoDup : NoDup chapter_names.
Proof. apply (bool_decide_unpack _). vm_compute. reflexivity. Qed.

Lemma chapter_names_farewell (i : nat) :
  chapter_names !! i = Some "Farewell" → i = 25%nat.
Proof.
  intros Hi. eapply NoDup_lookup; [apply chapter_names_NoDup | exact Hi |].
  reflexivity.
Qed.

Section SaveParserAreas.

Variable int : string → option Z.

Lemma real_pairs_names (names : list (option string)) (es : list Element) :
  (real_pairs names es).*1 = omap id (take (length es) names).
Proof.
  revert names. induction es as [|e es IH]; intros names.
  - by rewrite real_pairs_nil_r.
  - destruct names as [|slot names]; [reflexivity |].
    rewrite real_pairs_cons. simpl.
    destruct slot as [nm|]; simpl; by rewrite IH.
Qed.

Lemma stat_of_names (l : list AreaStats) (ps : list (string * Element)) :
  Forall2 (λ a p, stat_of int p.1 p.2 = Some a) l ps →
  name <$> l = ps.*1.
Proof.
  induction 1 as [|a [nm e] l ps Hstat _ IH]; [reflexivity |].
  rewrite !fmap_cons, IH. simpl in *.
  apply stat_of_fields in Hstat as [-> _]. reflexivity.
Qed.

Lemma areas_names_prefix (all_saves : list Element) (save_id : Z)
    (sf : SaveFile) :
  parse_areas int all_saves save_id = Ok sf →
  name <$> areas sf = take (length (areas sf)) chapter_names.
Proof.
  intros Hrun.
  destruct (parse_areas_inv int _ _ _ Hrun) as (root & _ & Hroot & _).
  destruct (parse_areas_ok int _ _ _ _ Hroot Hrun) as (_ & _ & Hareas & _).
  pose proof (stat_of_names _ _ Hareas) as Hnames.
  rewrite real_pairs_names in Hnames.
  rewrite <- (length_fmap name (areas sf)), Hnames.
  apply omap_take_prefix.
Qed.

(** X12. The areas of a parsed save are the first chapters of the
    catalog, in catalog order: their names are a prefix of the 26 chapter
    names, so there are at most 26 areas and no chapter occurs twice. *)
Theorem parse_areas_catalog_order (all_saves : list Element) (save_id : Z)
    (sf : SaveFile) :
  parse_areas int all_saves save_id = Ok sf →
  name <$> areas sf = take (length (areas sf)) chapter_names
  ∧ (length (areas sf) ≤ 26)%nat
  ∧ NoDup (name <$> areas sf).
Proof.
  intros Hrun. pose proof (areas_names_prefix _ _ _ Hrun) as Hnames.
  split; [exact Hnames |]. split.
  - apply (f_equal length) in Hnames.
    rewrite length_fmap, length_take in Hnames.
    change (length chapter_names) with 26%nat in Hnames. lia.
  - rewrite Hnames. eapply sublist_NoDup; [| apply sublist_take].
    apply chapter_names_NoDup.
Qed.

(** X13. A save with [game_completed] set lists all 26 chapters. *)
Theorem game_completed_all_chapters (all_saves : list Element) (save_id : Z)
    (sf : SaveFile) :
  parse_areas int all_saves save_id = Ok sf →
  game_completed sf = true →
  name <$> areas sf = chapter_names.
Proof.
  intros Hrun Hdone. pose proof (areas_names_prefix _ _ _ Hrun) as Hnames.
  destruct (parse_areas_inv int _ _ _ Hrun) as (root & _ & Hroot & _).
  destruct (parse_areas_ok int _ _ _ _ Hroot Hrun)
    as (_ & _ & _ & _ & _ & Hg & _).
  rewrite Hg in Hdone. apply existsb_exists in Hdone as (a & Hin & Hfar).
  unfold farewell_done in Hfar. apply andb_prop in Hfar as [_ Hname].
  apply String.eqb_eq in Hname.
  apply list_elem_of_In, list_elem_of_lookup in Hin as [i Hi].
  assert (Hlook : (name <$> areas sf) !! i = Some "Farewell")
    by (rewrite list_lookup_fmap, Hi; simpl; by rewrite Hname).
  rewrite Hnames in Hlook. apply lookup_take_Some in Hlook as [Hlook Hlt].
  apply chapter_names_farewell in Hlook. subst i.
  rewrite Hnames. apply take_ge.
  change (length chapter_names) with 26%nat. lia.
Qed.

Lemma stats_loop_placeholders (es1 : list Element) :
  ∀ (es2 : list Element) (names : list (option string)) (st : Loc.t),
    Loc.area_names st = reverse names →
    length es1 = length es2 →
    (∀ (i : nat) nm, names !! i = Some (Some nm) → es1 !! i = es2 !! i) →
    for_each (stats_body int) st es1 = for_each (stats_body int) st es2.
Proof.
  induction es1 as [|e1 es1 IH]; intros [|e2 es2] names st Hnames Hlen Hsame;
    try discriminate; [reflexivity |].
  simpl.
  assert (Hstep : stats_body int st e1 = stats_body int st e2).
  { destruct names as [|[nm|] names].
    - unfold stats_body. by rewrite Hnames.
    - specialize (Hsame O nm eq_refl). simpl in Hsame. by injection Hsame as ->.
    - unfold stats_body. by rewrite Hnames, py_pop_reverse_cons. }
  rewrite <- Hstep.
  destruct (stats_body int st e1) as [st1|err] eqn:Hrun; [simpl | reflexivity].
  destruct names as [|slot names].
  { unfold stats_body in Hrun. rewrite Hnames in Hrun. discriminate. }
  destruct (stats_body_ok int st st1 e1 slot names Hnames Hrun) as [Hn1 _].
  apply (IH es2 names st1 Hn1); [simpl in Hlen; lia |].
  intros i nm Hi. apply (Hsame (S i) nm Hi).
Qed.

(** X14. A stats entry that meets a placeholder slot, or comes after the
    33 slots, is never read: two documents whose stats entries are equally
    many and the same on the real slots give the same result, whatever the
    other entries hold or lack. *)
Theorem placeholder_entries_not_read (saves1 saves2 : list Element)
    (save_id : Z) (root1 root2 : Element) :
  py_index saves1 save_id = Ok root1 →
  py_index saves2 save_id = Ok root2 →
  areas_have_modes root1 → areas_have_modes root2 →
  length (scored_entries root1) = length (scored_entries root2) →
  (∀ (i : nat) nm, chapter_catalog !! i = Some (Some nm) →
                   scored_entries root1 !! i = scored_entries root2 !! i) →
  parse_areas int saves1 save_id = parse_areas int saves2 save_id.
Proof.
  intros H1 H2 Hm1 Hm2 Hlen Hsame.
  unfold parse_areas. rewrite H1, H2. simpl.
  rewrite (root_loop_flat int root1 _ Hm1), (root_loop_flat int root2 _ Hm2).
  by rewrite (stats_loop_placeholders _ _ chapter_catalog
                (Loc.mk (reverse chapter_catalog) 0 0 [] false)
                eq_refl Hlen Hsame).
Qed.

(** X15. Two parsed saves always line up: at every position that both
    have, the two areas are the same chapter, so the label of a row, taken
    from side A, is also the chapter of side B. *)
Theorem parsed_saves_aligned (saves1 saves2 : list Element) (id1 id2 : Z)
    (save_a save_b : SaveFile) :
  parse_areas int saves1 id1 = Ok save_a →
  parse_areas int saves2 id2 = Ok save_b →
  Forall (λ p, name p.1 = name p.2) (zip (areas save_a) (areas save_b))
  ∧ (chapter <$> time_rows (generate_results save_a save_b))
    = ((λ p, name p.2) <$>
         List.filter both_completed (zip (areas save_a) (areas save_b)))
      ++ ["TOTAL TIME"].
Proof.
  intros Ha Hb.
  pose proof (areas_names_prefix _ _ _ Ha) as Hna.
  pose proof (areas_names_prefix _ _ _ Hb) as Hnb.
  assert (Hzip : Forall (λ p, name p.1 = name p.2)
                   (zip (areas save_a) (areas save_b))).
  { apply Forall_forall. intros [a b] Hin.
    apply elem_of_lookup_zip_with in Hin as (i & a' & b' & [= <- <-] & Hia & Hib).
    assert (Hla : (name <$> areas save_a) !! i = Some (name a))
      by (by rewrite list_lookup_fmap, Hia).
    assert (Hlb : (name <$> areas save_b) !! i = Some (name b))
      by (by rewrite list_lookup_fmap, Hib).
    rewrite Hna in Hla. rewrite Hnb in Hlb.
    apply lookup_take_Some in Hla as [Hla _].
    apply lookup_take_Some in Hlb as [Hlb _].
    simpl. congruence. }
  split; [exact Hzip |].
  destruct (generate_results_rows save_a save_b) as [-> _].
  rewrite fmap_app, <- list_fmap_compose. f_equal.
  apply Forall_fmap_ext_1, Forall_forall. intros p Hp.
  apply list_elem_of_In, filter_In in Hp as [Hp _].
  apply list_elem_of_In in Hp.
  rewrite Forall_forall in Hzip. exact (Hzip p Hp).
Qed.

End SaveParserAreas.

(** ** The rows of a comparison *)

Lemma find_diff_head (time_a time_b : Z) :
  starts_with_minus (find_diff time_a time_b) = (time_a <? time_b).
Proof.
  unfold find_diff. rewrite max_min_abs.
  destruct (time_a <? time_b); simpl; [reflexivity |].
  rewrite append_empty_l. apply parse_time_head. lia.
Qed.

Lemma find_diff_same (t : Z) : find_diff t t = "0.000".
Proof.
  unfold find_diff. rewrite max_min_abs, Z.sub_diag, Z.ltb_irrefl.
  reflexivity.
Qed.

Lemma ltb_exclusive (x y : Z) : (x <? y) && (y <? x) = false.
Proof. split_comparisons; reflexivity. Qed.

Lemma zip_swapped {A B : Type} (l : list A) (k : list B) :
  zip k l = prod_swap <$> zip l k.
Proof.
  revert k. induction l as [|x l IH]; intros [|y k]; try reflexivity.
  simpl. by rewrite IH.
Qed.

Lemma filter_both_completed_swap (ps : list (AreaStats * AreaStats)) :
  List.filter both_completed (prod_swap <$> ps)
  = prod_swap <$> List.filter both_completed ps.
Proof.
  induction ps as [|[a b] ps IH]; [reflexivity |].
  rewrite fmap_cons.
  change (List.filter both_completed (prod_swap (a, b) :: (prod_swap <$> ps)))
    with (if completed b && completed a
          then (b, a) :: List.filter both_completed (prod_swap <$> ps)
          else List.filter both_completed (prod_swap <$> ps)).
  change (List.filter both_completed ((a, b) :: ps))
    with (if completed a && completed b
          then (a, b) :: List.filter both_completed ps
          else List.filter both_completed ps).
  rewrite IH, (andb_comm (completed b)).
  by destruct (completed a && completed b).
Qed.

(** X16. No row marks both sides as better. *)
Theorem better_flags_exclusive (save_a save_b : SaveFile) :
  Forall (λ r, a_is_better r && b_is_better r = false)
    (time_rows (generate_results save_a save_b)
       ++ death_rows (generate_results save_a save_b)).
Proof.
  destruct (generate_results_rows save_a save_b) as [-> ->].
  rewrite !Forall_app, !Forall_fmap, !Forall_singleton.
  repeat split.
  - apply Forall_true. intros p. apply ltb_exclusive.
  - simpl. destruct (game_completed save_a && game_completed save_b);
      [apply ltb_exclusive | reflexivity].
  - apply Forall_true. intros p. apply ltb_exclusive.
  - simpl. destruct (game_completed save_a && game_completed save_b);
      [apply ltb_exclusive | reflexivity].
Qed.

(** X17. Exchanging the two saves exchanges the two sides of every row:
    the same rows come out, with the values and the better-flags of A and
    B swapped. *)
Theorem generate_results_swap (save_a save_b : SaveFile) :
  row_sides <$> time_rows (generate_results save_b save_a)
  = row_sides_swapped <$> time_rows (generate_results save_a save_b)
  ∧ row_sides <$> death_rows (generate_results save_b save_a)
    = row_sides_swapped <$> death_rows (generate_results save_a save_b).
Proof.
  destruct (generate_results_rows save_a save_b) as [-> ->].
  destruct (generate_results_rows save_b save_a) as [-> ->].
  rewrite (zip_swapped (areas save_a) (areas save_b)).
  rewrite filter_both_completed_swap.
  rewrite !fmap_app, <- !list_fmap_compose.
  unfold row_sides, row_sides_swapped, total_time_row, total_deaths_row.
  simpl. rewrite (andb_comm (game_completed save_b)).
  split; f_equal; apply list_fmap_ext; intros [a b]; reflexivity.
Qed.

(** X18. The areas are paired up to the shorter list: what one save has
    beyond the length of the other never reaches the rows. *)
Theorem generate_results_truncates (save_a save_b : SaveFile) :
  let n := (length (areas save_a) `min` length (areas save_b))%nat in
  generate_results (with_areas save_a (take n (areas save_a)))
    (with_areas save_b (take n (areas save_b)))
  = generate_results save_a save_b.
Proof.
  intros n.
  assert (Hzip : zip (take n (areas save_a)) (take n (areas save_b))
                 = zip (areas save_a) (areas save_b))
    by (apply zip_with_take_both'; subst n; lia).
  unfold generate_results, with_areas.
  cbn [areas game_completed total_time total_deaths id_].
  rewrite Hzip. reflexivity.
Qed.

(** X19. In every chapter row the difference and the flags agree: a time
    difference starts with a minus sign exactly when A is better, and a
    death difference is negative exactly when A is better and positive
    exactly when B is better. The same holds for the totals rows when both
    saves are completed. *)
Theorem diff_agrees_with_flags (save_a save_b : SaveFile) :
  let data := generate_results save_a save_b in
  Forall time_row_coherent (removelast (time_rows data))
  ∧ Forall death_row_coherent (removelast (death_rows data))
  ∧ (game_completed save_a && game_completed save_b = true →
     Forall time_row_coherent (time_rows data)
     ∧ Forall death_row_coherent (death_rows data)).
Proof.
  intros data. subst data.
  destruct (generate_results_rows save_a save_b) as [-> ->].
  rewrite !removelast_last.
  assert (Ht : Forall time_row_coherent
                 (chapter_time_row <$>
                    List.filter both_completed
                      (zip (areas save_a) (areas save_b)))).
  { apply Forall_fmap, Forall_true. intros p. eexists.
    split; [reflexivity | apply find_diff_head]. }
  assert (Hd : Forall death_row_coherent
                 (chapter_death_row <$>
                    List.filter both_completed
                      (zip (areas save_a) (areas save_b)))).
  { apply Forall_fmap, Forall_true. intros p. eexists.
    split; [reflexivity |]. simpl. split; split_comparisons; reflexivity. }
  split; [exact Ht |]. split; [exact Hd |].
  intros Hboth. rewrite !Forall_app, !Forall_singleton.
  split; (split; [assumption |]).
  - eexists. unfold total_time_row. rewrite Hboth. simpl.
    split; [reflexivity | apply find_diff_head].
  - eexists. unfold total_deaths_row. rewrite Hboth. simpl.
    split; [reflexivity |]. split; split_comparisons; reflexivity.
Qed.

(** X20. A save compared with itself gives no better side anywhere: the
    two values of every row are equal, and every difference is zero
    ("0.000" for times, 0 for deaths) or the placeholder. *)
Theorem generate_results_self (save : SaveFile) :
  let data := generate_results save save in
  Forall (λ r, a_is_better r = false ∧ b_is_better r = false
               ∧ result_a r = result_b r
               ∧ (diff r = CStr "0.000" ∨ diff r = CStr "-"))
    (time_rows data)
  ∧ Forall (λ r, a_is_better r = false ∧ b_is_better r = false
                 ∧ result_a r = result_b r
                 ∧ (diff r = CInt 0 ∨ diff r = CStr "-"))
      (death_rows data).
Proof.
  intros data. subst data.
  destruct (generate_results_rows save save) as [-> ->].
  rewrite !Forall_app, !Forall_fmap, !Forall_singleton.
  unfold total_time_row, total_deaths_row. simpl.
  rewrite !Z.ltb_irrefl, !andb_false_r, find_diff_same, Z.sub_diag.
  repeat split.
  - rewrite zip_diag. apply Forall_forall. intros p Hp.
    apply list_elem_of_In, filter_In in Hp as [Hp _].
    apply list_elem_of_In, list_elem_of_fmap in Hp as (x & -> & _).
    simpl. rewrite Z.ltb_irrefl, find_diff_same. auto.
  - destruct (game_completed save); simpl; auto.
  - rewrite zip_diag. apply Forall_forall. intros p Hp.
    apply list_elem_of_In, filter_In in Hp as [Hp _].
    apply list_elem_of_In, list_elem_of_fmap in Hp as (x & -> & _).
    simpl. rewrite Z.ltb_irrefl, Z.sub_diag. auto.
  - destruct (game_completed save); simpl; auto.
Qed.

(** ** From the directory to the slot *)

(** X21. Of the saves loaded with a bound [max_saves], no slot at or
    above the bound, and none below its negation, can be selected:
    [parse_areas] raises [IndexError], whatever the directory holds. *)
Theorem loaded_slots_bounded (et_parse : string → option Element)
    (int : string → option Z) (dir : gmap string string)
    (max_saves save_id : Z) (saves : list Element) :
  load_all_saves et_parse dir max_saves = Loaded saves →
  save_id < - Z.max 0 max_saves ∨ Z.max 0 max_saves ≤ save_id →
  parse_areas int saves save_id = Raise IndexError.
Proof.
  intros Hload Hid.
  apply load_all_saves_inv in Hload as [c Hrun].
  apply load_loop_loaded in Hrun as (new & -> & _ & Hlen & _).
  unfold parse_areas. rewrite py_index_out_of_range; [reflexivity |].
  simpl. lia.
Qed.

(** ** Instances of the further properties *)

Lemma parse_time_injective_witness :
  0 ≤ 650000000 ∧ 0 ≤ 650009999
  ∧ parse_time 650000000 = parse_time 650009999.
Proof.
  split; [lia |]. split; [lia |].
  apply (proj2 (parse_time_injective 650000000 650009999 ltac:(lia) ltac:(lia))).
  reflexivity.
Defined.

Lemma parse_time_negative_witness :
  -1 < 0 ∧ parse_time (-1) = parse_time 35999999999.
Proof.
  split; [lia |]. apply (parse_time_negative (-1)). lia.
Defined.

Example parse_time_minus_one : parse_time (-1) = "59:59.999".
Proof. vm_compute. reflexivity. Qed.

Example load_toy_dir :
  load_all_saves toy_parse toy_dir 10 = Loaded [doc_one; doc_two].
Proof. vm_compute. reflexivity. Qed.

Lemma load_all_saves_prefix_witness :
  load_all_saves toy_parse toy_dir 10 = Loaded [doc_one; doc_two]
  ∧ toy_dir !! save_name 2 = None.
Proof.
  assert (H : load_all_saves toy_parse toy_dir 10 = Loaded [doc_one; doc_two])
    by (vm_compute; reflexivity).
  split; [exact H |].
  destruct (load_all_saves_prefix toy_parse toy_dir 10 _ H) as (_ & _ & Hstop).
  apply Hstop. simpl. lia.
Defined.

Lemma load_all_saves_stops_at_gap_witness :
  toy_dir !! save_name 2 = None
  ∧ toy_dir_more !! save_name 2 = None
  ∧ load_all_saves toy_parse toy_dir 10
    = load_all_saves toy_parse toy_dir_more 10.
Proof.
  assert (H1 : toy_dir !! save_name 2 = None) by (vm_compute; reflexivity).
  assert (H2 : toy_dir_more !! save_name 2 = None) by (vm_compute; reflexivity).
  split; [exact H1 |]. split; [exact H2 |].
  apply (load_all_saves_stops_at_gap toy_parse toy_dir toy_dir_more 2 10);
    [lia | | exact H1 | exact H2].
  intros i Hi. assert (i = 0 ∨ i = 1) as [-> | ->] by lia;
    vm_compute; reflexivity.
Defined.

Lemma ask_to_compare_tokens_witness :
  blank " " = true
  ∧ well_spaced [("0", "  "); ("4", " ")]
  ∧ ask_to_compare int_literal "  0  4 " = Ok (0, 4).
Proof.
  assert (H1 : blank " " = true) by reflexivity.
  assert (H2 : well_spaced [("0", "  "); ("4", " ")])
    by (simpl; repeat split; discriminate).
  split; [exact H1 |]. split; [exact H2 |].
  exact (ask_to_compare_tokens int_literal " " _ H1 H2).
Defined.

Example ask_to_compare_one_token :
  ask_to_compare int_literal "04" = Raise ValueError.
Proof. vm_compute. reflexivity. Qed.

Lemma parse_areas_no_areas_witness :
  py_index [doc_fresh] 0 = Ok doc_fresh
  ∧ areas_container doc_fresh = None
  ∧ parse_areas int_literal [doc_fresh] 0 = Ok (mkSaveFile 0 false 0 0 []).
Proof.
  assert (H1 : py_index [doc_fresh] 0 = Ok doc_fresh) by reflexivity.
  assert (H2 : areas_container doc_fresh = None) by reflexivity.
  split; [exact H1 |]. split; [exact H2 |].
  exact (parse_areas_no_areas int_literal [doc_fresh] 0 doc_fresh H1 H2).
Defined.

Lemma parse_areas_first_container_witness :
  areas_container doc_one = areas_container doc_one_more
  ∧ parse_areas int_literal [doc_one] 0
    = parse_areas int_literal [doc_one_more] 0.
Proof.
  assert (H : areas_container doc_one = areas_container doc_one_more)
    by reflexivity.
  split; [exact H |].
  exact (parse_areas_first_container int_literal [doc_one] [doc_one_more] 0
           doc_one doc_one_more eq_refl eq_refl H).
Defined.

Lemma parse_areas_catalog_exhausted_witness :
  (33 < length (scored_entries doc_overfull))%nat
  ∧ parse_areas int_literal [doc_overfull] 0 = Raise IndexError.
Proof.
  assert (Hlen : (33 < length (scored_entries doc_overfull))%nat)
    by (vm_compute; lia).
  split; [exact Hlen |].
  apply (parse_areas_catalog_exhausted int_literal [doc_overfull] 0
           doc_overfull eq_refl); [| | exact Hlen].
  - unfold areas_have_modes. simpl.
    repeat (constructor; [discriminate |]). constructor.
  - assert (Hes : scored_entries doc_overfull
                  = replicate 34 (stats_entry "true" "10" "1")) by reflexivity.
    apply Forall_forall. intros [nm e] Hin.
    apply real_pairs_lookup in Hin as (i & _ & He).
    apply list_elem_of_lookup_2 in He. rewrite Hes in He.
    apply elem_of_replicate in He as [-> _].
    eexists. vm_compute. reflexivity.
Defined.

Lemma parse_areas_catalog_order_witness :
  parse_areas int_literal [doc_two] 0 = Ok prologue_only
  ∧ name <$> areas prologue_only = take 1 chapter_names.
Proof.
  assert (H : parse_areas int_literal [doc_two] 0 = Ok prologue_only)
    by (vm_compute; reflexivity).
  split; [exact H |].
  exact (proj1 (parse_areas_catalog_order int_literal [doc_two] 0 _ H)).
Defined.

Lemma game_completed_all_chapters_witness :
  ∃ sf, parse_areas int_literal [doc_full] 0 = Ok sf
        ∧ game_completed sf = true
        ∧ name <$> areas sf = chapter_names.
Proof.
  destruct (parse_areas int_literal [doc_full] 0) as [sf|e] eqn:Hrun;
    [| vm_compute in Hrun; discriminate].
  assert (Hdone : game_completed sf = true)
    by (vm_compute in Hrun; injection Hrun as <-; reflexivity).
  exists sf. split; [reflexivity |]. split; [exact Hdone |].
  exact (game_completed_all_chapters int_literal [doc_full] 0 sf Hrun Hdone).
Defined.

Lemma placeholder_entries_not_read_witness :
  length (scored_entries doc_flat) = length (scored_entries doc_flat_bare)
  ∧ parse_areas int_literal [doc_flat] 0
    = parse_areas int_literal [doc_flat_bare] 0.
Proof.
  split; [reflexivity |].
  apply (placeholder_entries_not_read int_literal [doc_flat] [doc_flat_bare] 0
           doc_flat doc_flat_bare eq_refl eq_refl).
  - unfold areas_have_modes. simpl. repeat constructor. discriminate.
  - unfold areas_have_modes. simpl. repeat constructor. discriminate.
  - reflexivity.
  - intros [|[|[|i]]] nm Hslot; try reflexivity; discriminate.
Defined.

Lemma parsed_saves_aligned_witness :
  ∃ save_b,
    parse_areas int_literal [doc_two] 0 = Ok prologue_only
    ∧ parse_areas int_literal [doc_full] 0 = Ok save_b
    ∧ Forall (λ p, name p.1 = name p.2)
        (zip (areas prologue_only) (areas save_b)).
Proof.
  assert (Ha : parse_areas int_literal [doc_two] 0 = Ok prologue_only)
    by (vm_compute; reflexivity).
  destruct (parse_areas int_literal [doc_full] 0) as [save_b|e] eqn:Hb;
    [| vm_compute in Hb; discriminate].
  exists save_b. split; [exact Ha |]. split; [reflexivity |].
  exact (proj1 (parsed_saves_aligned int_literal [doc_two] [doc_full] 0 0
                  _ _ Ha Hb)).
Defined.

Lemma diff_agrees_with_flags_witness :
  game_completed save_done_a && game_completed save_done_b = true
  ∧ Forall time_row_coherent
      (time_rows (generate_results save_done_a save_done_b))
  ∧ Forall death_row_coherent
      (death_rows (generate_results save_done_a save_done_b)).
Proof.
  split; [reflexivity |].
  destruct (diff_agrees_with_flags save_done_a save_done_b) as (_ & _ & Hall).
  exact (Hall eq_refl).
Defined.

Lemma loaded_slots_bounded_witness :
  load_all_saves toy_parse toy_dir 10 = Loaded [doc_one; doc_two]
  ∧ Z.max 0 10 ≤ 10
  ∧ parse_areas int_literal [doc_one; doc_two] 10 = Raise IndexError.
Proof.
  assert (H : load_all_saves toy_parse toy_dir 10 = Loaded [doc_one; doc_two])
    by (vm_compute; reflexivity).
  split; [exact H |]. split; [lia |].
  apply (loaded_slots_bounded toy_parse int_literal toy_dir 10 10 _ H).
  right. lia.
Defined.
